(** * Graph-preparation engine of the narrative co-occurrence pages

    Shallow embedding of the data preparation done by
    [pages/4_Cocurrence_Mapping_complex.py] (module [Complex]) and
    [pages/5_Cocurrence_Mapping.py] (module [Simple]), and of the
    hover-sampling loop of the JavaScript they emit (module [Hover]).

    Conventions of the embedding:
    - a pandas table is the list of its rows, in table order;
    - a float64 column value is an exact rational ([Qc], whose Leibniz
      equality is numeric equality, as [==] on finite floats); rounding,
      infinities and NaN are outside the model;
    - a null [cluster_name] is [None];
    - a Python exception is the [Raise] branch of the [py] monad;
    - trigonometry and square roots are taken in [R]. *)

From Stdlib Require Import ZArith QArith Qcanon Qreals Reals Lra Lia.
From stdpp Require Import base decidable option list gmap strings.

Local Open Scope Z_scope.

(** ** Python values and exceptions *)

Inductive exn : Set :=
  | ZeroDivisionError
  | TypeError
  | ValueError
  | StopIteration
  | KeyError.

Inductive py (A : Type) : Type :=
  | Ok (a : A)
  | Raise (e : exn).
Arguments Ok {A} a.
Arguments Raise {A} e.

Global Instance py_ret : MRet py := fun A a => Ok a.
Global Instance py_bind : MBind py := fun A B f m =>
  match m with
  | Ok a => f a
  | Raise e => Raise e
  end.
Global Instance py_fmap : FMap py := fun A B f m =>
  match m with
  | Ok a => Ok (f a)
  | Raise e => Raise e
  end.

(** [[f(x) for x in l]] where [f] may raise: the first exception wins. *)
Fixpoint py_map {A B} (f : A -> py B) (l : list A) : py (list B) :=
  match l with
  | [] => Ok []
  | x :: l' => y ← f x; ys ← py_map f l'; Ok (y :: ys)
  end.

Definition is_ok {A} (m : py A) : Prop := exists a, m = Ok a.

(** ** Numbers *)

Definition Z2Qc (z : Z) : Qc := Q2Qc (inject_Z z).
Definition nat2Qc (n : nat) : Qc := Z2Qc (Z.of_nat n).
Definition Qc2R (q : Qc) : R := Q2R (this q).

(** Python [a / b] on two [int]s: true division, [ZeroDivisionError] on a
    zero divisor. *)
Definition py_truediv (a b : Z) : py Qc :=
  if decide (b = 0) then Raise ZeroDivisionError
  else Ok (Z2Qc a / Z2Qc b)%Qc.

(** Python [int(x)] on a finite float: truncation towards zero. *)
Definition py_int_of_float (q : Qc) : Z :=
  Z.quot (Qnum (this q)) (Z.pos (Qden (this q))).

(** ** Tables *)

(** The values an [avg_score] cell is modelled to hold: a scalar (null, an
    [int], a finite float or NaN) or a collection of scalars; a set is listed
    in its iteration order. *)
Inductive pyscalar : Type :=
  | PyNone
  | PyInt (z : Z)
  | PyFloat (q : Qc)
  | PyNaN.

Inductive pyval : Type :=
  | PyScalar (v : pyscalar)
  | PyList (l : list pyscalar)
  | PySet (elems : list pyscalar).

Record node : Type := Node {
  nd_quarter : string;
  nd_x : Qc;
  nd_y : Qc;
  nd_cluster_name : option string;
  nd_theme : string;
  nd_avg_score : pyval;
  nd_scaled_size : Qc;
  nd_sentiment : Qc
}.

Record edge : Type := Edge {
  ed_quarter : string;
  ed_x0 : Qc;
  ed_y0 : Qc;
  ed_x1 : Qc;
  ed_y1 : Qc;
  ed_weight : Qc;
  ed_color : string;
  ed_theme_1 : string;
  ed_theme_2 : string;
  ed_sentiment : Qc
}.

Abbreviation coord := (Qc * Qc)%type.

(** Python [float(v)]: a number is converted, a null or a collection is a
    [TypeError]. *)
Definition py_float (v : pyval) : py pyscalar :=
  match v with
  | PyScalar (PyInt z) => Ok (PyFloat (Z2Qc z))
  | PyScalar (PyFloat q) => Ok (PyFloat q)
  | PyScalar PyNaN => Ok PyNaN
  | PyScalar PyNone => Raise TypeError
  | PyList _ => Raise TypeError
  | PySet _ => Raise TypeError
  end.

(** Python [int(v)] on a scalar: truncation of a float, [ValueError] on NaN,
    [TypeError] on a null. *)
Definition py_int (v : pyscalar) : py Z :=
  match v with
  | PyInt z => Ok z
  | PyFloat q => Ok (py_int_of_float q)
  | PyNaN => Raise ValueError
  | PyNone => Raise TypeError
  end.

(** Python [next(iter(s))]. *)
Definition py_next_iter (elems : list pyscalar) : py pyscalar :=
  match elems with
  | [] => Raise StopIteration
  | v :: _ => Ok v
  end.

(** ** Library functions used by both pages *)

(** pandas [Series.unique()]: the distinct values in order of first
    appearance. *)
Fixpoint unique `{EqDecision A} (l : list A) : list A :=
  match l with
  | [] => []
  | x :: l' => x :: filter (fun y => y <> x) (unique l')
  end.

(** Python [sorted]: a stable sort. [before x y] tells that [x] may stand
    before [y]; an element is inserted in front of the first element it may
    stand before, so equal elements keep their original order. *)
Section Sorted.
Context {A : Type} (before : A -> A -> bool).

Fixpoint insert_sorted (x : A) (l : list A) : list A :=
  match l with
  | [] => [x]
  | y :: l' => if before x y then x :: y :: l' else y :: insert_sorted x l'
  end.

Fixpoint py_sorted (l : list A) : list A :=
  match l with
  | [] => []
  | x :: l' => insert_sorted x (py_sorted l')
  end.
End Sorted.

(** [sorted(names)] on strings. *)
Definition sorted_strings : list string -> list string := py_sorted String.leb.

(** A Python [dict] in insertion order: [d.get(k, default)] and [d[k] = v]
    (a new key goes last, an existing key keeps its place). *)
Section Dict.
Context {K V : Type} `{EqDecision K}.

Fixpoint dict_get (d : list (K * V)) (k : K) (default : V) : V :=
  match d with
  | [] => default
  | (k', v) :: d' => if decide (k' = k) then v else dict_get d' k default
  end.

Fixpoint dict_set (d : list (K * V)) (k : K) (v : V) : list (K * V) :=
  match d with
  | [] => [(k, v)]
  | (k', v') :: d' =>
      if decide (k' = k) then (k, v) :: d' else (k', v') :: dict_set d' k v
  end.

(** [d[k]]: a [KeyError] on a missing key. *)
Fixpoint dict_lookup (d : list (K * V)) (k : K) : py V :=
  match d with
  | [] => Raise KeyError
  | (k', v) :: d' => if decide (k' = k) then Ok v else dict_lookup d' k
  end.
End Dict.

Definition Qc_sum (l : list Qc) : Qc := foldr Qcplus (Q2Qc 0) l.

(** [np.average(a, weights=w)]: [sum(a * w) / sum(w)], and a
    [ZeroDivisionError] ("Weights sum to zero, can't be normalized") when the
    weights sum to zero. *)
Definition np_average (a w : list Qc) : py Qc :=
  let scl := Qc_sum w in
  if decide (scl = Q2Qc 0) then Raise ZeroDivisionError
  else Ok (Qc_sum (zip_with Qcmult a w) / scl)%Qc.

(** pandas [Series.mean()] on a non-empty column. *)
Definition series_mean (l : list Qc) : Qc :=
  (Qc_sum l / nat2Qc (length l))%Qc.

(** [custom_cmap[i % len(custom_cmap)]]. *)
Definition custom_cmap : list string :=
  ["#1f77b4"; "#808000"; "#ff7f0e"; "#d62728"; "#9467bd"; "#8c564b"; "#17becf"]%string.

Definition cmap_color (i : nat) : string :=
  default EmptyString (custom_cmap !! (i mod length custom_cmap)%nat).

(** [{cluster: custom_cmap[i % len(custom_cmap)] for i, cluster in
    enumerate(unique_clusters)}]. *)
Definition make_cluster_color_map (unique_clusters : list string)
  : list (string * string) :=
  imap (fun i c => (c, cmap_color i)) unique_clusters.

(** [sorted(column.unique())] on a column that was not cleaned with
    [dropna()]: comparing a null with a string is a [TypeError], so the call
    succeeds only if the null is alone or absent. *)
Definition sorted_clusters_with_null (l : list (option string))
  : py (list (option string)) :=
  if decide (None ∈ l) then
    match l with
    | [_] => Ok l
    | _ => Raise TypeError
    end
  else Ok (Some <$> sorted_strings (omap (fun c => c) l)).

(** ** Render payload *)

(** The fields the edge hover template interpolates:
    [Topics: {c1} <-> {c2}], [Themes: {t1} <-> {t2}],
    [Engagement Score: {int(weight)}], [Sentiment: {sentiment:.2f}]. *)
Record edge_hover : Type := EdgeHover {
  eh_start_cluster : option string;
  eh_end_cluster : option string;
  eh_theme_1 : string;
  eh_theme_2 : string;
  eh_engagement : Z;
  eh_sentiment : Qc
}.

Record edge_datum : Type := EdgeDatum {
  e_x0 : Qc;
  e_y0 : Qc;
  e_x1 : Qc;
  e_y1 : Qc;
  e_weight : Qc;
  e_color : string;
  e_hover_text : edge_hover
}.

(** The fields of the node hover template: [Topic], [Theme],
    [Engagement Score: {avg_score_display}], [Sentiment]. *)
Record node_hover : Type := NodeHover {
  nh_topic : option string;
  nh_theme : string;
  nh_avg_score_display : Z;
  nh_sentiment : Qc
}.

Record node_datum : Type := NodeDatum {
  n_x : Qc;
  n_y : Qc;
  n_size : Qc;
  n_color : string;
  n_cluster : option string;
  n_hover_text : node_hover
}.

Record label_datum : Type := LabelDatum {
  l_x : R;
  l_y : R;
  l_text : string;
  l_color : string
}.

Record payload : Type := Payload {
  edge_data : list edge_datum;
  node_data : list node_datum;
  label_data : list label_datum
}.

(** ** Steps that are the same text in both pages *)

(** The rotated columns: [x_rot = -y], [y_rot = x]. *)
Definition node_coord (n : node) : coord := ((- nd_y n)%Qc, nd_x n).
Definition start_coord (e : edge) : coord := ((- ed_y0 e)%Qc, ed_x0 e).
Definition end_coord (e : edge) : coord := ((- ed_y1 e)%Qc, ed_x1 e).

(** [node_coords = set(); for edge: node_coords.add(start); node_coords.add(end)] *)
Definition collect_coords (start_of end_of : edge -> coord) (edges : list edge)
  : gset coord :=
  foldl (fun s e => s ∪ {[ start_of e ]} ∪ {[ end_of e ]}) ∅ edges.

(** The scan that names the clusters of an edge's two ends:
[[
    start_cluster = "Unknown"; end_cluster = "Unknown"
    for _, node in nodes.iterrows():
        if node_coord == start_coord:   start_cluster = node['cluster_name']
        elif node_coord == end_coord:   end_cluster = node['cluster_name']
]] *)
Definition Unknown : option string := Some "Unknown"%string.

Definition scan_node (sc ec : coord) (acc : option string * option string)
    (n : node) : option string * option string :=
  if decide (node_coord n = sc) then (nd_cluster_name n, acc.2)
  else if decide (node_coord n = ec) then (acc.1, nd_cluster_name n)
  else acc.

Definition edge_clusters (nodes : list node) (sc ec : coord)
  : option string * option string :=
  foldl (scan_node sc ec) (Unknown, Unknown) nodes.

(** One entry of [edge_data]. *)
Definition enrich_edge (nodes : list node) (e : edge) : edge_datum :=
  let cl := edge_clusters nodes (start_coord e) (end_coord e) in
  {| e_x0 := (start_coord e).1; e_y0 := (start_coord e).2;
     e_x1 := (end_coord e).1; e_y1 := (end_coord e).2;
     e_weight := ed_weight e;
     e_color := ed_color e;
     e_hover_text :=
       {| eh_start_cluster := cl.1; eh_end_cluster := cl.2;
          eh_theme_1 := ed_theme_1 e; eh_theme_2 := ed_theme_2 e;
          eh_engagement := py_int_of_float (ed_weight e);
          eh_sentiment := ed_sentiment e |} |}.

(** [avg_score_display]:
[[
    if isinstance(node['avg_score'], set):
        avg_score_display = int(next(iter(node['avg_score'])))
    else:
        avg_score_display = int(float(node['avg_score']))
]] *)
Definition avg_score_display (v : pyval) : py Z :=
  match v with
  | PySet elems => x ← py_next_iter elems; py_int x
  | _ => f ← py_float v; py_int f
  end.

(** [np.linspace(0, stop, n, endpoint=False)]: [k * (stop / n)], [k < n]. *)
Definition np_linspace_open (stop : R) (n : nat) : list R :=
  (fun k => INR k * (stop / INR n))%R <$> seq 0 n.

(** The label angles:
[[
    angle_offset = np.linspace(0, span, len(centroids), endpoint=False)
    angle_offset += np.pi / len(centroids)
]]
    [np.pi] is a Python float and [len] an [int]: no group is a
    [ZeroDivisionError]. *)
Definition angle_offset (span : R) (n : nat) : py (list R) :=
  if decide (n = 0%nat) then Raise ZeroDivisionError
  else Ok ((fun a => a + PI / INR n)%R <$> np_linspace_open span n).

(** The rows of [groupby('cluster_name')]: the non-null keys in sorted
    order, each with its rows in table order. *)
Definition groupby_cluster (nodes : list node) : list (string * list node) :=
  (fun c => (c, filter (fun n => nd_cluster_name n = Some c) nodes))
    <$> sorted_strings (unique (omap nd_cluster_name nodes)).

(** [centroids['x'] += radius_offset * np.cos(angle_offset)] and the same for
    [y] with [np.sin], then one label per row, coloured by
    [cluster_color_map[row['cluster_name']]]. *)
Definition place_label {K} `{EqDecision K} (radius_offset : R)
    (color_map : list (K * string)) (key : string -> K)
    (row : string * (Qc * Qc)) (angle : R) : py label_datum :=
  color ← dict_lookup color_map (key row.1);
  Ok {| l_x := (Qc2R row.2.1 + radius_offset * cos angle)%R;
        l_y := (Qc2R row.2.2 + radius_offset * sin angle)%R;
        l_text := row.1;
        l_color := color |}.

(** The labels of both pages, from the rows of [centroids]. *)
Definition label_layout {K} `{EqDecision K} (span radius_offset : R)
    (color_map : list (K * string)) (key : string -> K)
    (centroids : list (string * (Qc * Qc))) : py (list label_datum) :=
  angles ← angle_offset span (length centroids);
  py_map (fun ra => place_label radius_offset color_map key ra.1 ra.2)
         (zip centroids angles).

(** The node positions and sizes that [np.average] receives for a group. *)
Definition xs_rot (g : list node) : list Qc := (fun n => (node_coord n).1) <$> g.
Definition ys_rot (g : list node) : list Qc := (fun n => (node_coord n).2) <$> g.
Definition sizes (g : list node) : list Qc := nd_scaled_size <$> g.

(** One row of [centroids]: the [np.average] of the rotated positions with
    [scaled_size] as weights. *)
Definition centroid (g : list node) : py (Qc * Qc) :=
  x ← np_average (xs_rot g) (sizes g);
  y ← np_average (ys_rot g) (sizes g);
  Ok (x, y).

(** ** [pages/4_Cocurrence_Mapping_complex.py] *)

Module Complex.

Record tributary : Type := Tributary {
  count : nat;
  percentage : Qc;
  avg_sentiment : Qc;
  co_occurrences : list (option string * Qc)
}.

Record river_data : Type := RiverData {
  total_nodes : nat;
  total_edges : nat;
  connected_count : nat;
  co_occurrence_rate : Qc;
  tributary_stats : list (string * tributary);
  nodes_quarter : list node;
  edges_quarter : list edge;
  connected_nodes : list node
}.

(** [node_coords_q]: the unrotated end points of the quarter's edges. *)
Definition node_coords_q (edges_q : list edge) : gset coord :=
  collect_coords (fun e => (ed_x0 e, ed_y0 e)) (fun e => (ed_x1 e, ed_y1 e))
    edges_q.

Definition has_edge_q (coords : gset coord) (row : node) : bool :=
  bool_decide ((nd_x row, nd_y row) ∈ coords).

(** [nodes_q[(nodes_q['x'] == x) & (nodes_q['y'] == y)]] *)
Definition nodes_at (nodes_q : list node) (x y : Qc) : list node :=
  filter (fun n => nd_x n = x ∧ nd_y n = y) nodes_q.

(** What one edge appends to [cluster_edges] for [cluster]. *)
Definition cluster_edge (nodes_q : list node) (cluster : string) (e : edge)
  : list (option string * Qc) :=
  match nodes_at nodes_q (ed_x0 e) (ed_y0 e),
        nodes_at nodes_q (ed_x1 e) (ed_y1 e) with
  | s :: _, t :: _ =>
      let start_cluster := nd_cluster_name s in
      let end_cluster := nd_cluster_name t in
      if bool_decide (start_cluster = Some cluster)
         || bool_decide (end_cluster = Some cluster)
      then
        let other_cluster :=
          if bool_decide (start_cluster = Some cluster) then end_cluster
          else start_cluster in
        if bool_decide (other_cluster ≠ Some cluster)
        then [(other_cluster, ed_weight e)] else []
      else []
  | _, _ => []
  end.

Definition cluster_edges (nodes_q : list node) (edges_q : list edge)
    (cluster : string) : list (option string * Qc) :=
  e ← edges_q; cluster_edge nodes_q cluster e.

(** [co_occurrence_counts[other] = co_occurrence_counts.get(other, 0) + weight] *)
Definition count_step (d : list (option string * Qc)) (p : option string * Qc)
  : list (option string * Qc) :=
  dict_set d p.1 (dict_get d p.1 (Q2Qc 0) + p.2)%Qc.

Definition co_occurrence_counts (l : list (option string * Qc))
  : list (option string * Qc) :=
  foldl count_step [] l.

(** [key=lambda x: x[1], reverse=True]: the larger weight stands first. *)
Definition by_weight_desc (a b : option string * Qc) : bool :=
  bool_decide (b.2 ≤ a.2)%Qc.

(** [sorted(co_occurrence_counts.items(), key=..., reverse=True)[:2]] *)
Definition top_co_occurrences (nodes_q : list node) (edges_q : list edge)
    (cluster : string) : list (option string * Qc) :=
  take 2 (py_sorted by_weight_desc
            (co_occurrence_counts (cluster_edges nodes_q edges_q cluster))).

(** The body of [for cluster in unique_clusters]. *)
Definition cluster_stats (nodes_q : list node) (edges_q : list edge)
    (total_nodes : nat) (cluster : string) : py (string * tributary) :=
  let cluster_nodes := filter (fun n => nd_cluster_name n = Some cluster) nodes_q in
  let cluster_count := length cluster_nodes in
  r ← py_truediv (Z.of_nat cluster_count) (Z.of_nat total_nodes);
  let percentage := (r * Z2Qc 100)%Qc in
  let avg_sentiment := series_mean (nd_sentiment <$> cluster_nodes) in
  Ok (cluster,
      {| count := cluster_count;
         percentage := percentage;
         avg_sentiment := avg_sentiment;
         co_occurrences := top_co_occurrences nodes_q edges_q cluster |}).

(** [(connected_count / total_nodes * 100) if total_nodes > 0 else 0] *)
Definition rate (connected_count total_nodes : nat) : py Qc :=
  if decide (0 < total_nodes)%nat then
    r ← py_truediv (Z.of_nat connected_count) (Z.of_nat total_nodes);
    Ok (r * Z2Qc 100)%Qc
  else Ok (Z2Qc 0).

Definition calculate_river_flow_data (df_nodes : list node)
    (df_edges : list edge) (selected_quarter : string) : py river_data :=
  let nodes_q := filter (fun n => nd_quarter n = selected_quarter) df_nodes in
  let edges_q := filter (fun e => ed_quarter e = selected_quarter) df_edges in
  let total_nodes := length nodes_q in
  let total_edges := length edges_q in
  let coords := node_coords_q edges_q in
  let connected_nodes := filter (fun n => has_edge_q coords n = true) nodes_q in
  let connected_count := length connected_nodes in
  co_occurrence_rate ← rate connected_count total_nodes;
  let unique_clusters :=
    sorted_strings (unique (omap nd_cluster_name nodes_q)) in
  tributary_stats ← py_map (cluster_stats nodes_q edges_q total_nodes)
                      unique_clusters;
  Ok {| total_nodes := total_nodes;
        total_edges := total_edges;
        connected_count := connected_count;
        co_occurrence_rate := co_occurrence_rate;
        tributary_stats := tributary_stats;
        nodes_quarter := nodes_q;
        edges_quarter := edges_q;
        connected_nodes := connected_nodes |}.

(** What [create_dynamic_visualization_html] hands to the script it writes,
    or the "No data available" notice of its early return. *)
Inductive html : Type :=
  | NoData
  | Visualization (p : payload).

Definition arc_span : R := (1.2 * PI)%R.
Definition radius_offset : R := 0.27%R.

(** One entry of [node_data]; the sentiment guard ([pd.notna], [try]) has
    nothing to catch on a finite value. *)
Definition node_entry (color_map : list (string * string)) (cluster : string)
    (n : node) : py node_datum :=
  avg ← avg_score_display (nd_avg_score n);
  color ← dict_lookup color_map cluster;
  Ok {| n_x := (node_coord n).1; n_y := (node_coord n).2;
        n_size := nd_scaled_size n;
        n_color := color;
        n_cluster := Some cluster;
        n_hover_text :=
          {| nh_topic := nd_cluster_name n; nh_theme := nd_theme n;
             nh_avg_score_display := avg;
             nh_sentiment := nd_sentiment n |} |}.

Definition create_dynamic_visualization_html (rd : river_data) : py html :=
  let nodes_q := nodes_quarter rd in
  let edges_q := edges_quarter rd in
  if decide (length nodes_q = 0%nat) then Ok NoData
  else
    let nodes_q_all := nodes_q in
    let unique_clusters :=
      sorted_strings (unique (omap nd_cluster_name nodes_q_all)) in
    let cluster_color_map := make_cluster_color_map unique_clusters in
    let edge_data := enrich_edge nodes_q_all <$> edges_q in
    node_data ← py_map
      (fun cluster =>
         py_map (node_entry cluster_color_map cluster)
           (filter (fun n => nd_cluster_name n = Some cluster) nodes_q_all))
      unique_clusters;
    centroids ← py_map (fun g => c ← centroid g.2; Ok (g.1, c))
                       (groupby_cluster nodes_q_all);
    label_data ← label_layout arc_span radius_offset cluster_color_map
                    (fun c => c) centroids;
    Ok (Visualization {| edge_data := edge_data;
                         node_data := concat node_data;
                         label_data := label_data |}).

End Complex.

(** ** [pages/5_Cocurrence_Mapping.py] *)

Module Simple.

Definition arc_span : R := (2.2 * PI)%R.
Definition radius_offset : R := 0.4%R.

Definition node_coords (df_edges : list edge) : gset coord :=
  collect_coords start_coord end_coord df_edges.

Definition has_edge (coords : gset coord) (row : node) : bool :=
  bool_decide (node_coord row ∈ coords).

(** What the page shows: the two counts and the percentage of the
    [st.info] line, then the payload of the script. *)
Record page : Type := Page {
  total_nodes : nat;
  connected_nodes : nat;
  info_rate : Qc;
  shown : payload
}.

(** One entry of [node_data]. *)
Definition node_entry (color_map : list (option string * string))
    (cluster : option string) (n : node) : py node_datum :=
  avg ← avg_score_display (nd_avg_score n);
  color ← dict_lookup color_map cluster;
  Ok {| n_x := (node_coord n).1; n_y := (node_coord n).2;
        n_size := (nd_scaled_size n / Q2Qc 2.5)%Qc;
        n_color := color;
        n_cluster := cluster;
        n_hover_text :=
          {| nh_topic := nd_cluster_name n; nh_theme := nd_theme n;
             nh_avg_score_display := avg;
             nh_sentiment := nd_sentiment n |} |}.

(** [df[df['cluster_name'] == cluster]]: a null never compares equal. *)
Definition cluster_rows (nodes : list node) (cluster : option string)
  : list node :=
  match cluster with
  | Some c => filter (fun n => nd_cluster_name n = Some c) nodes
  | None => []
  end.

(** [df_nodes[df_nodes.apply(has_edge, axis=1)]] *)
Definition connected (df_nodes : list node) (df_edges : list edge)
  : list node :=
  filter (fun n => has_edge (node_coords df_edges) n = true) df_nodes.

Definition run (df_nodes : list node) (df_edges : list edge) : py page :=
  let df_nodes_connected := connected df_nodes df_edges in
  let total_nodes := length df_nodes in
  let connected_nodes := length df_nodes_connected in
  r ← py_truediv (Z.of_nat connected_nodes) (Z.of_nat total_nodes);
  let info_rate := (r * Z2Qc 100)%Qc in
  unique_clusters ←
    sorted_clusters_with_null (unique (nd_cluster_name <$> df_nodes_connected));
  let cluster_color_map :=
    imap (fun i c => (c, cmap_color i)) unique_clusters in
  let edge_data := enrich_edge df_nodes_connected <$> df_edges in
  node_data ← py_map
    (fun cluster =>
       py_map (node_entry cluster_color_map cluster)
         (cluster_rows df_nodes_connected cluster))
    unique_clusters;
  centroids ← py_map (fun g => c ← centroid g.2; Ok (g.1, c))
                     (groupby_cluster df_nodes_connected);
  label_data ← label_layout arc_span radius_offset cluster_color_map
                  Some centroids;
  Ok {| total_nodes := total_nodes;
        connected_nodes := connected_nodes;
        info_rate := info_rate;
        shown := {| edge_data := edge_data;
                    node_data := concat node_data;
                    label_data := label_data |} |}.

End Simple.

(** ** The hover points of [getResponsiveTraces] (emitted JavaScript)

    JavaScript numbers are taken as real numbers; [edgeData] is the
    [edge_data] of the payload. The simpler page also pushes the edge colour
    ([edgeHoverColors]); the other page has the same loop without it. *)

Module Hover.

Record js_edge : Type := JsEdge {
  x0 : R;
  y0 : R;
  x1 : R;
  y1 : R;
  color : string;
  hover_text : edge_hover
}.

(** [const edgeData = {json.dumps(edge_data)}] *)
Definition of_edge_datum (d : edge_datum) : js_edge :=
  {| x0 := Qc2R (e_x0 d); y0 := Qc2R (e_y0 d);
     x1 := Qc2R (e_x1 d); y1 := Qc2R (e_y1 d);
     color := e_color d; hover_text := e_hover_text d |}.

Record arrays : Type := Arrays {
  edgeHoverX : list R;
  edgeHoverY : list R;
  edgeHoverTexts : list edge_hover;
  edgeHoverColors : list string
}.

Definition empty_arrays : arrays :=
  {| edgeHoverX := []; edgeHoverY := [];
     edgeHoverTexts := []; edgeHoverColors := [] |}.

Definition dx (e : js_edge) : R := (x1 e - x0 e)%R.
Definition dy (e : js_edge) : R := (y1 e - y0 e)%R.

(** [Math.sqrt(dx * dx + dy * dy)] *)
Definition edgeLength (e : js_edge) : R :=
  sqrt (dx e * dx e + dy e * dy e)%R.

(** [Math.max(5, Math.floor(edgeLength * 20))] *)
Definition numPoints (e : js_edge) : Z :=
  Z.max 5 (Zfloor (edgeLength e * 20)%R).

(** [const t = i / (numPoints - 1)] *)
Definition t_of (e : js_edge) (i : nat) : R :=
  (INR i / (IZR (numPoints e) - 1))%R.

(** The body of the [for] loop at index [i]. *)
Definition push_point (e : js_edge) (i : nat) (a : arrays) : arrays :=
  let t := t_of e i in
  let x := (x0 e + t * dx e)%R in
  let y := (y0 e + t * dy e)%R in
  {| edgeHoverX := edgeHoverX a ++ [x];
     edgeHoverY := edgeHoverY a ++ [y];
     edgeHoverTexts := edgeHoverTexts a ++ [hover_text e];
     edgeHoverColors := edgeHoverColors a ++ [color e] |}.

(** [for (let i = from; i < from + steps; i++) body(i)] *)
Fixpoint for_loop {St : Type} (body : nat -> St -> St) (from steps : nat)
    (s : St) : St :=
  match steps with
  | O => s
  | S k => for_loop body (S from) k (body from s)
  end.

(** The callback of [edgeData.forEach]. *)
Definition sample_edge (a : arrays) (e : js_edge) : arrays :=
  for_loop (push_point e) 0 (Z.to_nat (numPoints e)) a.

Definition edge_hover_points (edgeData : list js_edge) : arrays :=
  foldl sample_edge empty_arrays edgeData.

End Hover.

(** ** Notions the statements are phrased with *)

(** [x] stands somewhere before [y] in [l]. *)
Fixpoint precedes {A} (l : list A) (x y : A) : Prop :=
  match l with
  | [] => False
  | z :: l' => (z = x ∧ y ∈ l') ∨ precedes l' x y
  end.



(** The sum of the weights an attribution list holds for one key. *)
Definition sum_for {K} `{EqDecision K} (k : K) (l : list (K * Qc)) : Qc :=
  Qc_sum (snd <$> filter (fun p => p.1 = k) l).

(** A row with a non-null [cluster_name]. *)
Definition has_cluster (n : node) : Prop := is_Some (nd_cluster_name n).

(** The ranking as the specification words it. An end point resolves to the
    cluster of the node at that position; an edge with an end in [cluster]
    gives its weight to the cluster of its other end, unless both ends
    resolve to the same cluster. *)
Module RankingSpec.

Definition resolves_to (nodes_q : list node) (x y : Qc)
  : option (option string) :=
  nd_cluster_name <$> head (Complex.nodes_at nodes_q x y).

Definition other_cluster (nodes_q : list node) (cluster : string) (e : edge)
  : option (option string) :=
  s ← resolves_to nodes_q (ed_x0 e) (ed_y0 e);
  t ← resolves_to nodes_q (ed_x1 e) (ed_y1 e);
  if decide (s = t) then None
  else if decide (s = Some cluster) then Some t
  else if decide (t = Some cluster) then Some s
  else None.


(** The sum of the weights attributed to [other]. *)
Definition accumulated (nodes_q : list node) (edges_q : list edge)
    (cluster : string) (other : option string) : Qc :=
  Qc_sum (ed_weight <$>
    filter (fun e => other_cluster nodes_q cluster e = Some other) edges_q).

End RankingSpec.

(** ** Sample tables *)

Module Examples.
Local Open Scope string_scope.

Definition sample_node (x y : Z) (cluster : option string) (size : Z) : node :=
  {| nd_quarter := "2024Q1"; nd_x := Z2Qc x; nd_y := Z2Qc y;
     nd_cluster_name := cluster; nd_theme := "theme";
     nd_avg_score := PyScalar (PyFloat (Z2Qc 7));
     nd_scaled_size := Z2Qc size; nd_sentiment := Z2Qc 0 |}.

Definition sample_edge (x0 y0 x1 y1 weight : Z) : edge :=
  {| ed_quarter := "2024Q1"; ed_x0 := Z2Qc x0; ed_y0 := Z2Qc y0;
     ed_x1 := Z2Qc x1; ed_y1 := Z2Qc y1; ed_weight := Z2Qc weight;
     ed_color := "green"; ed_theme_1 := "theme 1"; ed_theme_2 := "theme 2";
     ed_sentiment := Z2Qc 0 |}.

(** Three nodes at distinct positions, one edge joining the first two. *)
Definition three_nodes : list node :=
  [sample_node 0 0 (Some "Awareness") 1;
   sample_node 1 0 (Some "Self-Regulation") 1;
   sample_node 5 5 (Some "Awareness") 1].
Definition one_edge : list edge := [sample_edge 0 0 1 0 40].

(** A node and an edge that starts and ends on it. *)
Definition lone_node : node := sample_node 1 2 (Some "Awareness") 1.
Definition loop_edge : edge := sample_edge 1 2 1 2 40.

(** Two joined nodes, the second without a cluster name. *)
Definition unnamed_pair : list node :=
  [sample_node 0 0 (Some "Awareness") 1; sample_node 1 0 None 1].



(** Edges around "A": "B" and "C" tie at 5, "D" has 7, "E" has 2. *)
Definition ranking_nodes : list node :=
  [sample_node 0 0 (Some "A") 1; sample_node 1 0 (Some "B") 1;
   sample_node 2 0 (Some "C") 1; sample_node 3 0 (Some "D") 1;
   sample_node 4 0 (Some "E") 1].
Definition ranking_edges : list edge :=
  [sample_edge 0 0 1 0 5; sample_edge 2 0 0 0 3; sample_edge 0 0 4 0 2;
   sample_edge 0 0 3 0 7; sample_edge 0 0 2 0 2; sample_edge 1 0 2 0 9;
   sample_edge 0 0 0 0 9].
End Examples.

(** ** The rest of the two pages

    Functions of the pages that the statements above do not reach. A function
    that can fail here returns an [option]; the comment at each [None] names
    the Python exception. *)

(** *** [get_time_colors] *)

Module TimeColors.

Record time_colors : Type := TimeColors {
  primary : string;
  secondary : string;
  bg_gradient : string;
  ripple_color : string;
  text_color : string
}.

Definition get_time_colors (hour : Z) : time_colors :=
  if (5 <=? hour) && (hour <? 8) then
    {| primary := "#FF6B6B"; secondary := "#FFB347";
       bg_gradient := "linear-gradient(135deg, #FF6B6B 0%, #FFB347 100%)";
       ripple_color := "rgba(255, 107, 107, 0.3)";
       text_color := "black" |}
  else if (8 <=? hour) && (hour <? 12) then
    {| primary := "#4ECDC4"; secondary := "#45B7D1";
       bg_gradient := "linear-gradient(135deg, #4ECDC4 0%, #45B7D1 100%)";
       ripple_color := "rgba(78, 205, 196, 0.3)";
       text_color := "black" |}
  else if (12 <=? hour) && (hour <? 17) then
    {| primary := "#45B7D1"; secondary := "#96CEB4";
       bg_gradient := "linear-gradient(135deg, #45B7D1 0%, #96CEB4 100%)";
       ripple_color := "rgba(69, 183, 209, 0.3)";
       text_color := "black" |}
  else if (17 <=? hour) && (hour <? 20) then
    {| primary := "#A29BFE"; secondary := "#FD79A8";
       bg_gradient := "linear-gradient(135deg, #A29BFE 0%, #FD79A8 100%)";
       ripple_color := "rgba(162, 155, 254, 0.3)";
       text_color := "white" |}
  else
    {| primary := "#6C5CE7"; secondary := "#2D3436";
       bg_gradient := "linear-gradient(135deg, #6C5CE7 0%, #2D3436 100%)";
       ripple_color := "rgba(108, 92, 231, 0.3)";
       text_color := "white" |}.

End TimeColors.

(** *** The period index and its navigation (complex page) *)

Module PeriodIndex.

(** [q[:4]] *)
Definition first4 (q : string) : string := String.substring 0 4 q.

(** [q[-1]]; [None] is the [IndexError] of an empty string. *)
Fixpoint last_char (q : string) : option Ascii.ascii :=
  match q with
  | EmptyString => None
  | String c EmptyString => Some c
  | String _ q' => last_char q'
  end.

(** [f"{q[:4]}Q{q[-1]}"] *)
Definition quarter_label (q : string) : option string :=
  c ← last_char q;
  Some (String.append (first4 q) (String.append "Q" (String c EmptyString))).

(** [quarters = sorted(df_nodes['quarter'].unique())] *)
Definition quarters (df_nodes : list node) : list string :=
  sorted_strings (unique (nd_quarter <$> df_nodes)).

(** [quarter_labels = [f"{q[:4]}Q{q[-1]}" for q in quarters]] *)
Definition quarter_labels (qs : list string) : option (list string) :=
  mapM quarter_label qs.

(** [reverse_label_map = {f"{q[:4]}Q{q[-1]}": q for q in quarters}]: a
    label met again keeps its place and takes the later quarter. *)
Definition reverse_label_map (qs : list string) : option (list (string * string)) :=
  foldl (fun acc q => d ← acc; l ← quarter_label q; Some (dict_set d l q))
        (Some []) qs.







End PeriodIndex.

(** *** [create_professional_sidebar_html] (complex page) *)

Module Sidebar.

(** [topic_mapping]: colour and icon of the seven known topics;
    [calculate_river_flow_data] stores
    [topic_mapping.get(cluster, {}).get('color', '#64748b')], and the icon
    in the same way, in the cluster's statistics. *)
Definition topic_mapping : list (string * (string * string)) :=
  [("Self-Regulation", ("#1f77b4", "🎯"));
   ("Awareness", ("#84cc16", "🌿"));
   ("Buddhism & Spirituality", ("#f59e0b", "🕉️"));
   ("Concentration & Flow", ("#ef4444", "🎯"));
   ("Practice, Retreat, & Meta", ("#a855f7", "🏛️"));
   ("Anxiety & Mental Health", ("#22c55e", "💚"));
   ("Meditation & Mindfulness", ("#17becf", "🧘"))]%string.

Definition topic_color (cluster : string) : string :=
  (dict_get topic_mapping cluster ("#64748b", "📊")%string).1.

Definition topic_icon (cluster : string) : string :=
  (dict_get topic_mapping cluster ("#64748b", "📊")%string).2.

Definition tributary_descriptions : list (string * string) :=
  [("Meditation & Mindfulness", "Main river");
   ("Anxiety & Mental Health", "Growing tributary");
   ("Buddhism & Spirituality", "Mountain spring");
   ("Concentration & Flow", "Fast current");
   ("Practice, Retreat, & Meta", "Deep wellspring");
   ("Awareness", "Clear stream");
   ("Self-Regulation", "Steady flow")]%string.

(** [name.split(' ')[0]]: the characters before the first space. *)
Fixpoint first_word (name : string) : string :=
  match name with
  | EmptyString => EmptyString
  | String c rest =>
      if Ascii.eqb c (Ascii.ascii_of_nat 32) then EmptyString
      else String c (first_word rest)
  end.

(** [min(99, int((weight / stats['count']) * 100)) if stats['count'] > 0 else 0] *)
Definition co_occur_percentage (weight : Qc) (count : nat) : Z :=
  if decide (0 < count)%nat
  then Z.min 99 (py_int_of_float (weight / nat2Qc count * Z2Qc 100)%Qc)
  else 0.

(** One item of [co_occur_list], as the pair the text
    [f"{name.split(' ')[0]} ({percentage}%)"] shows; [None] is the
    [AttributeError] of a null name. *)
Definition co_occur_item (count : nat) (p : option string * Qc)
  : option (string * Z) :=
  name ← p.1; Some (first_word name, co_occur_percentage p.2 count).

(** [co_occur_text]: "Independent flow" or "Co-occurs with: ..." *)
Inductive co_occur_text : Type :=
  | IndependentFlow
  | CoOccursWith (items : list (string * Z)).

(** What one block of [story_tributaries_html] shows. *)
Record card : Type := Card {
  cd_cluster : string;
  cd_icon : string;
  cd_color : string;
  cd_percentage : Qc;
  cd_description : string;
  cd_count : nat;
  cd_co_occur_text : co_occur_text
}.

(** The body of [for cluster, stats in sorted_tributaries]. *)
Definition card_of (entry : string * Complex.tributary) : option card :=
  let cluster := entry.1 in
  let stats := entry.2 in
  let description :=
    dict_get tributary_descriptions cluster "Flow pattern"%string in
  text ← match Complex.co_occurrences stats with
         | [] => Some IndependentFlow
         | _ :: _ =>
             CoOccursWith <$>
               mapM (co_occur_item (Complex.count stats))
                    (take 2 (Complex.co_occurrences stats))
         end;
  Some {| cd_cluster := cluster;
          cd_icon := topic_icon cluster;
          cd_color := topic_color cluster;
          cd_percentage := Complex.percentage stats;
          cd_description := description;
          cd_count := Complex.count stats;
          cd_co_occur_text := text |}.

(** [key=lambda x: x[1]['percentage'], reverse=True] *)
Definition by_percentage_desc (a b : string * Complex.tributary) : bool :=
  bool_decide (Complex.percentage b.2 ≤ Complex.percentage a.2)%Qc.

Definition sidebar_cards (tributary_stats : list (string * Complex.tributary))
  : option (list card) :=
  mapM card_of (py_sorted by_percentage_desc tributary_stats).

End Sidebar.

(** *** The traces of [getResponsiveTraces] (emitted JavaScript)

    The colours of the hover labels, parsed from the hex colour of each
    node, are left out of a trace. *)

Module Traces.

Inductive trace : Type :=
  | EdgeLine (x y : list Qc) (width : Qc) (color : string)
  | EdgeHoverPoints (a : Hover.arrays)
  | ClusterMarkers (cluster : option string) (x y size : list Qc)
      (color : string) (hovertext : list node_hover)
  | LabelText (x y : R) (text color : string).

(** [Math.min(8, edge.weight * 0.02)] in the complex page. *)
Definition width_complex (weight : Qc) : Qc :=
  let w := (weight * Q2Qc 0.02)%Qc in
  if decide (Q2Qc 8 ≤ w)%Qc then Q2Qc 8 else w.

(** [edge.weight * 0.005] in the simpler page. *)
Definition width_simple (weight : Qc) : Qc := (weight * Q2Qc 0.005)%Qc.

Definition edge_line (width : Qc -> Qc) (edge : edge_datum) : trace :=
  EdgeLine [e_x0 edge; e_x1 edge] [e_y0 edge; e_y1 edge]
           (width (e_weight edge)) (e_color edge).

(** [window.innerWidth <= 768 ? n.size * 0.8 : n.size] *)
Definition marker_size (innerWidth : Z) (n : node_datum) : Qc :=
  if decide (innerWidth <= 768) then (n_size n * Q2Qc 0.8)%Qc else n_size n.

(** The callback of [clusters.forEach]; a cluster without nodes adds
    nothing. *)
Definition cluster_trace (innerWidth : Z) (nodeData : list node_datum)
    (cluster : option string) : list trace :=
  let clusterNodes := filter (fun n => n_cluster n = cluster) nodeData in
  match clusterNodes with
  | [] => []
  | first :: _ =>
      [ClusterMarkers cluster (n_x <$> clusterNodes) (n_y <$> clusterNodes)
         (marker_size innerWidth <$> clusterNodes) (n_color first)
         (n_hover_text <$> clusterNodes)]
  end.

Definition label_trace (label : label_datum) : trace :=
  LabelText (l_x label) (l_y label) (l_text label) (l_color label).

Definition getResponsiveTraces (width : Qc -> Qc) (innerWidth : Z)
    (edgeData : list edge_datum) (nodeData : list node_datum)
    (labelData : list label_datum) : list trace :=
  let lines := edge_line width <$> edgeData in
  let a := Hover.edge_hover_points (Hover.of_edge_datum <$> edgeData) in
  let hover :=
    if decide (0 < length (Hover.edgeHoverX a))%nat
    then [EdgeHoverPoints a] else [] in
  (* [[...new Set(nodeData.map(n => n.cluster))]] *)
  let clusters := unique (n_cluster <$> nodeData) in
  lines ++ hover
    ++ (cluster ← clusters; cluster_trace innerWidth nodeData cluster)
    ++ (label_trace <$> labelData).

(** The nodes a trace draws, as their positions and annotations. *)
Definition drawn (t : trace) : list (Qc * Qc * node_hover) :=
  match t with
  | ClusterMarkers _ x y _ _ hovertext => zip (zip x y) hovertext
  | _ => []
  end.

End Traces.

(** * Proofs *)

(** ** Lists: [unique], [py_sorted], [precedes] *)

Section ListFacts.
Context {A : Type}.
Implicit Types (l : list A) (x y : A).

Lemma precedes_elem_of l x y : precedes l x y -> x ∈ l ∧ y ∈ l.
Proof.
  induction l as [|z l IH]; simpl; [done|].
  rewrite !elem_of_cons. intros [[-> Hy]|H]; [by auto|].
  destruct (IH H); auto.
Qed.

Lemma precedes_app l1 l2 x y :
  precedes (l1 ++ l2) x y <->
  precedes l1 x y ∨ (x ∈ l1 ∧ y ∈ l2) ∨ precedes l2 x y.
Proof.
  induction l1 as [|z l1 IH]; simpl.
  - split; [by auto|]. intros [[]|[[H _]|H]]; [by inversion H|done].
  - rewrite IH, elem_of_app, elem_of_cons. clear IH.
    split.
    + intros [[-> [H|H]]|[H|[[H1 H2]|H]]]; eauto 10.
    + intros [[[-> H]|H]|[[[->|H1] H2]|H]]; eauto 10.
Qed.

Lemma precedes_lookup l x y :
  precedes l x y <->
  exists i j, (i < j)%nat ∧ l !! i = Some x ∧ l !! j = Some y.
Proof.
  induction l as [|z l IH]; simpl.
  - split; [done|]. intros (i & j & _ & H & _). by destruct i.
  - rewrite IH. clear IH. split.
    + intros [[-> Hy]|(i & j & Hij & Hi & Hj)].
      * apply list_elem_of_lookup in Hy as [j Hj].
        exists 0%nat, (S j). split; [lia|done].
      * exists (S i), (S j). split; [lia|done].
    + intros (i & j & Hij & Hi & Hj).
      destruct j as [|j]; [lia|]. simpl in Hj.
      destruct i as [|i]; simpl in Hi.
      * left. split; [congruence|]. by eapply list_elem_of_lookup_2.
      * right. exists i, j. split; [lia|done].
Qed.

Lemma precedes_NoDup_asym l x y :
  NoDup l -> precedes l x y -> ¬ precedes l y x.
Proof.
  induction 1 as [|z l Hz Hnd IH]; simpl; [done|].
  intros [[-> Hy]|H1] [[E Hx]|H2]; subst.
  - done.
  - apply precedes_elem_of in H2. tauto.
  - apply precedes_elem_of in H1. tauto.
  - by apply IH.
Qed.
End ListFacts.


Section Unique.
Context `{EqDecision A}.
Implicit Types (l : list A) (x : A).

Lemma elem_of_unique l x : x ∈ unique l <-> x ∈ l.
Proof.
  induction l as [|z l IH]; simpl; [done|].
  rewrite !elem_of_cons, list_elem_of_filter, IH.
  destruct (decide (x = z)); tauto.
Qed.

Lemma NoDup_unique l : NoDup (unique l).
Proof.
  induction l as [|z l IH]; simpl; constructor.
  - rewrite list_elem_of_filter. tauto.
  - by apply NoDup_filter.
Qed.
End Unique.

Section SortedFacts.
Context {A : Type} (before : A -> A -> bool).
Implicit Types (l s : list A) (a x y : A).

Lemma insert_sorted_Permutation a s : insert_sorted before a s ≡ₚ a :: s.
Proof.
  induction s as [|z s IH]; simpl; [done|].
  destruct (before a z); [done|].
  rewrite IH. apply Permutation_swap.
Qed.

Lemma elem_of_insert_sorted a s x :
  x ∈ insert_sorted before a s <-> x = a ∨ x ∈ s.
Proof. by rewrite insert_sorted_Permutation, elem_of_cons. Qed.

Lemma py_sorted_Permutation l : py_sorted before l ≡ₚ l.
Proof.
  induction l as [|z l IH]; simpl; [done|].
  by rewrite insert_sorted_Permutation, IH.
Qed.

Lemma elem_of_py_sorted l x : x ∈ py_sorted before l <-> x ∈ l.
Proof. by rewrite py_sorted_Permutation. Qed.

Lemma length_py_sorted l : length (py_sorted before l) = length l.
Proof. by rewrite py_sorted_Permutation. Qed.

Lemma NoDup_py_sorted l : NoDup l -> NoDup (py_sorted before l).
Proof. by rewrite py_sorted_Permutation. Qed.



Hypothesis before_total : forall x y, before x y = true ∨ before y x = true.
Hypothesis before_trans :
  forall x y z, before x y = true -> before y z = true -> before x z = true.

Lemma insert_sorted_ordered a s :
  (forall x y, precedes s x y -> before x y = true) ->
  forall x y, precedes (insert_sorted before a s) x y -> before x y = true.
Proof.
  induction s as [|z s IH]; simpl; intros Hs x y.
  - intros [[_ H]|[]]. by inversion H.
  - destruct (before a z) eqn:Hb; simpl.
    + intros [[<- H]|H]; [|by apply Hs].
      apply elem_of_cons in H as [->|H]; [done|].
      apply before_trans with z; [done|]. apply Hs. auto.
    + rewrite elem_of_insert_sorted.
      intros [[<- [->|H]]|H].
      * destruct (before_total a z); congruence.
      * apply Hs. auto.
      * apply IH; [|done]. intros ???. apply Hs. auto.
Qed.

(** The result is ordered. *)
Lemma py_sorted_ordered l x y :
  precedes (py_sorted before l) x y -> before x y = true.
Proof.
  revert x y. induction l as [|z l IH]; simpl; [done|].
  by apply insert_sorted_ordered.
Qed.
End SortedFacts.

(** ** Hover sampling *)

Module HoverFacts.
Import Hover.

Lemma numPoints_ge_5 e : 5 <= numPoints e.
Proof. unfold numPoints. lia. Qed.



Lemma for_loop_push e from steps a :
  let a' := for_loop (push_point e) from steps a in
  edgeHoverX a' =
    edgeHoverX a ++ ((fun i => x0 e + t_of e i * dx e)%R <$> seq from steps)
  ∧ edgeHoverY a' =
    edgeHoverY a ++ ((fun i => y0 e + t_of e i * dy e)%R <$> seq from steps)
  ∧ edgeHoverTexts a' = edgeHoverTexts a ++ replicate steps (hover_text e)
  ∧ edgeHoverColors a' = edgeHoverColors a ++ replicate steps (color e).
Proof.
  revert from a. induction steps as [|k IH]; intros from a; simpl.
  - by rewrite !app_nil_r.
  - destruct (IH (S from) (push_point e from a)) as (-> & -> & -> & ->).
    simpl. by rewrite <- !app_assoc.
Qed.


End HoverFacts.


(** ** The [py] monad *)

Lemma py_map_ok {A B} (f : A -> py B) (l : list A) :
  (forall x, x ∈ l -> is_ok (f x)) -> is_ok (py_map f l).
Proof.
  induction l as [|x l IH]; intros H; simpl.
  - by eexists.
  - destruct (H x) as [y ->]; [by left|].
    destruct IH as [ys ->]; [intros; apply H; by right|].
    by eexists.
Qed.

Lemma py_map_length {A B} (f : A -> py B) (l : list A) (ys : list B) :
  py_map f l = Ok ys -> length ys = length l.
Proof.
  revert ys. induction l as [|x l IH]; intros ys; simpl.
  - by intros [= <-].
  - destruct (f x) as [y|]; simpl; [|done].
    destruct (py_map f l) as [ys'|]; simpl; [|done].
    intros [= <-]. simpl. by rewrite (IH ys').
Qed.

Lemma py_map_lookup {A B} (f : A -> py B) (l : list A) (ys : list B) i x :
  py_map f l = Ok ys -> l !! i = Some x ->
  exists y, ys !! i = Some y ∧ f x = Ok y.
Proof.
  revert ys i. induction l as [|z l IH]; intros ys i; simpl; [done|].
  destruct (f z) as [y|] eqn:Hz; simpl; [|done].
  destruct (py_map f l) as [ys'|]; simpl; [|done].
  intros [= <-] Hi. destruct i as [|i]; simpl in *.
  - injection Hi as ->. eauto.
  - by apply IH.
Qed.

(** ** Connectivity *)

Lemma elem_of_collect_coords (s t : edge -> coord) (edges : list edge) c :
  c ∈ collect_coords s t edges <->
  exists e, e ∈ edges ∧ (c = s e ∨ c = t e).
Proof.
  unfold collect_coords.
  assert (forall acc : gset coord,
    c ∈ foldl (fun a e => a ∪ {[ s e ]} ∪ {[ t e ]}) acc edges <->
    c ∈ acc ∨ exists e, e ∈ edges ∧ (c = s e ∨ c = t e)) as H.
  { induction edges as [|e edges IH]; intros acc; simpl.
    - split; [by auto|]. intros [?|(e & He & _)]; [done|by inversion He].
    - rewrite IH, !elem_of_union, !elem_of_singleton. split.
      + intros [[[?|?]|?]|(e' & He' & ?)]; eauto using list_elem_of_here.
        right. exists e'. split; [by right|done].
      + intros [?|(e' & He' & Hc)]; [by auto|].
        apply elem_of_cons in He' as [->|He']; [tauto|eauto]. }
  rewrite H, elem_of_empty. tauto.
Qed.

Lemma node_coord_inj (n : node) (x y : Qc) :
  node_coord n = ((- y)%Qc, x) <-> (nd_x n, nd_y n) = (x, y).
Proof.
  unfold node_coord. split; intros H.
  - pose proof (f_equal fst H) as H1. pose proof (f_equal snd H) as H2.
    simpl in H1, H2. apply (f_equal Qcopp) in H1.
    rewrite !Qcopp_involutive in H1. by subst.
  - pose proof (f_equal fst H) as H1. pose proof (f_equal snd H) as H2.
    simpl in H1, H2. by subst.
Qed.

Module ComplexFacts.
Import Complex.

Lemma rate_spec (cc tn : nat) :
  rate cc tn =
  Ok (if decide (tn = 0%nat) then Z2Qc 0
      else (Z2Qc (Z.of_nat cc) / Z2Qc (Z.of_nat tn) * Z2Qc 100)%Qc).
Proof.
  unfold rate, py_truediv.
  destruct (decide (0 < tn)%nat), (decide (tn = 0%nat)); try lia; [|done].
  destruct (decide (Z.of_nat tn = 0)); [lia|done].
Qed.

Lemma cluster_stats_ok nodes_q edges_q cluster :
  cluster ∈ omap nd_cluster_name nodes_q ->
  is_ok (cluster_stats nodes_q edges_q (length nodes_q) cluster).
Proof.
  intros H. unfold cluster_stats, py_truediv.
  destruct (decide (Z.of_nat (length nodes_q) = 0)) as [E|_].
  - destruct nodes_q; [by inversion H|simpl in E; lia].
  - by eexists.
Qed.

(** The function never raises, and what it returns. *)
Lemma calculate_river_flow_data_ok df_nodes df_edges q :
  let nodes_q := filter (fun n => nd_quarter n = q) df_nodes in
  let edges_q := filter (fun e => ed_quarter e = q) df_edges in
  let conn :=
    filter (fun n => has_edge_q (node_coords_q edges_q) n = true) nodes_q in
  exists stats,
    calculate_river_flow_data df_nodes df_edges q =
    Ok {| total_nodes := length nodes_q;
          total_edges := length edges_q;
          connected_count := length conn;
          co_occurrence_rate :=
            (if decide (length nodes_q = 0%nat) then Z2Qc 0
             else (Z2Qc (Z.of_nat (length conn))
                   / Z2Qc (Z.of_nat (length nodes_q)) * Z2Qc 100)%Qc);
          tributary_stats := stats;
          nodes_quarter := nodes_q;
          edges_quarter := edges_q;
          connected_nodes := conn |}.
Proof.
  intros nodes_q edges_q conn. unfold calculate_river_flow_data.
  fold nodes_q. fold edges_q. fold conn.
  rewrite rate_spec. simpl.
  destruct (py_map_ok (cluster_stats nodes_q edges_q (length nodes_q))
              (sorted_strings (unique (omap nd_cluster_name nodes_q))))
    as [stats ->]; [|by eexists].
  intros c Hc. apply cluster_stats_ok.
  unfold sorted_strings in Hc.
  by rewrite elem_of_py_sorted, elem_of_unique in Hc.
Qed.

Lemma elem_of_connected (nodes_q : list node) (edges_q : list edge) n :
  n ∈ filter (fun n => has_edge_q (node_coords_q edges_q) n = true) nodes_q
  <-> n ∈ nodes_q
      ∧ exists e, e ∈ edges_q
          ∧ ((nd_x n, nd_y n) = (ed_x0 e, ed_y0 e)
             ∨ (nd_x n, nd_y n) = (ed_x1 e, ed_y1 e)).
Proof.
  rewrite list_elem_of_filter. unfold has_edge_q, node_coords_q.
  rewrite bool_decide_eq_true, elem_of_collect_coords. tauto.
Qed.
End ComplexFacts.

(** C9. In [calculate_river_flow_data], which never raises, the connected
    nodes of the selected period are exactly the period's nodes whose position
    is the start or the end of one of the period's edges, and
    [connected_count] counts them; the simpler page selects its connected rows
    by the same test. In particular a period with three nodes at distinct
    positions and one edge joining two of them has [connected_count = 2] and a
    rate of 200/3, that is 66.7 to one decimal. *)
Theorem connected_iff_edge_endpoint :
  (forall df_nodes df_edges q,
     exists rd,
       Complex.calculate_river_flow_data df_nodes df_edges q = Ok rd
       ∧ Complex.nodes_quarter rd = filter (fun n => nd_quarter n = q) df_nodes
       ∧ Complex.edges_quarter rd = filter (fun e => ed_quarter e = q) df_edges
       ∧ Complex.connected_count rd = length (Complex.connected_nodes rd)
       ∧ (forall n,
            n ∈ Complex.connected_nodes rd <->
            n ∈ Complex.nodes_quarter rd
            ∧ exists e, e ∈ Complex.edges_quarter rd
                ∧ ((nd_x n, nd_y n) = (ed_x0 e, ed_y0 e)
                   ∨ (nd_x n, nd_y n) = (ed_x1 e, ed_y1 e)))
       ∧ (forall a b c e,
            Complex.nodes_quarter rd ≡ₚ [a; b; c] ->
            (nd_x a, nd_y a) <> (nd_x b, nd_y b) ->
            (nd_x a, nd_y a) <> (nd_x c, nd_y c) ->
            (nd_x b, nd_y b) <> (nd_x c, nd_y c) ->
            Complex.edges_quarter rd = [e] ->
            (ed_x0 e, ed_y0 e) = (nd_x a, nd_y a) ->
            (ed_x1 e, ed_y1 e) = (nd_x b, nd_y b) ->
            Complex.connected_count rd = 2%nat
            ∧ Complex.co_occurrence_rate rd = Q2Qc (200 # 3)
            ∧ (Q2Qc 66.65 < Complex.co_occurrence_rate rd < Q2Qc 66.75)%Qc))
  ∧ (forall df_nodes df_edges n,
       n ∈ Simple.connected df_nodes df_edges <->
       n ∈ df_nodes
       ∧ exists e, e ∈ df_edges
           ∧ ((nd_x n, nd_y n) = (ed_x0 e, ed_y0 e)
              ∨ (nd_x n, nd_y n) = (ed_x1 e, ed_y1 e))).
Proof.
  split.
  - intros df_nodes df_edges q.
    destruct (ComplexFacts.calculate_river_flow_data_ok df_nodes df_edges q)
      as [stats ->].
    eexists. split; [done|]. simpl.
    split_and!; try done.
    + intros n. apply ComplexFacts.elem_of_connected.
    + intros a b c e Hperm Hab Hac Hbc -> Hs Ht.
      set (P := fun n => Complex.has_edge_q (Complex.node_coords_q [e]) n = true).
      assert (HP : forall n, P n <->
                (nd_x n, nd_y n) = (nd_x a, nd_y a)
                ∨ (nd_x n, nd_y n) = (nd_x b, nd_y b)).
      { intros n. unfold P, Complex.has_edge_q, Complex.node_coords_q.
        rewrite bool_decide_eq_true, elem_of_collect_coords.
        rewrite <- Hs, <- Ht. split.
        - intros (e' & He' & H). apply list_elem_of_singleton in He' as ->. done.
        - intros H. exists e. split; [by left|done]. }
      assert (length (filter P (filter (fun n => nd_quarter n = q) df_nodes))
              = 2%nat) as Hcc.
      { rewrite Hperm.
        rewrite filter_cons_True by (apply HP; by left).
        rewrite filter_cons_True by (apply HP; by right).
        rewrite filter_cons_False; [done|].
        rewrite HP. intros [H|H]; congruence. }
      assert (length (filter (fun n => nd_quarter n = q) df_nodes) = 3%nat)
        as Hlen by (by rewrite Hperm).
      rewrite Hcc, Hlen. simpl.
      split; [done|]. split; [by apply Qc_is_canon|].
      split; by vm_compute.
  - intros df_nodes df_edges n. unfold Simple.connected.
    rewrite list_elem_of_filter. unfold Simple.has_edge, Simple.node_coords.
    rewrite bool_decide_eq_true, elem_of_collect_coords.
    unfold start_coord, end_coord.
    split.
    + intros [(e & He & H) Hn]. split; [done|]. exists e. split; [done|].
      by rewrite <- !node_coord_inj.
    + intros [Hn (e & He & H)]. split; [|done]. exists e. split; [done|].
      by rewrite !node_coord_inj.
Qed.

(** ** Edge enrichment *)

Section Enrichment.
Implicit Types (nodes : list node) (sc ec : coord) (n : node).

(** What the scan leaves in its two variables: the start side is named by
    the last node at the start position; the end side by the last node at
    the end position that is not also at the start position. *)
Lemma edge_clusters_spec nodes sc ec :
  edge_clusters nodes sc ec =
  (from_option nd_cluster_name Unknown
     (last (filter (fun n => node_coord n = sc) nodes)),
   from_option nd_cluster_name Unknown
     (last (filter (fun n => node_coord n = ec ∧ node_coord n <> sc) nodes))).
Proof.
  unfold edge_clusters.
  induction nodes as [|n nodes IH] using rev_ind; [done|].
  rewrite foldl_app, !filter_app, IH. cbn [foldl]. unfold scan_node.
  cbn [fst snd].
  destruct (decide (node_coord n = sc)) as [Hs|Hs].
  - rewrite (filter_cons_True _ n) by done.
    rewrite (filter_cons_False _ n) by tauto.
    by rewrite !filter_nil, last_snoc, app_nil_r.
  - rewrite (filter_cons_False (fun n => node_coord n = sc) n) by done.
    rewrite filter_nil, app_nil_r.
    destruct (decide (node_coord n = ec)) as [He|He].
    + rewrite filter_cons_True by done. by rewrite filter_nil, last_snoc.
    + rewrite filter_cons_False by tauto. by rewrite filter_nil, app_nil_r.
Qed.

Lemma last_filter_unique (P : node -> Prop) `{forall n, Decision (P n)}
    nodes n :
  n ∈ nodes -> P n ->
  (forall m, m ∈ nodes -> P m -> nd_cluster_name m = nd_cluster_name n) ->
  from_option nd_cluster_name Unknown (last (filter P nodes))
  = nd_cluster_name n.
Proof.
  intros Hn HP Huniq.
  destruct (last (filter P nodes)) as [m|] eqn:Hm; simpl.
  - apply last_Some_elem_of, list_elem_of_filter in Hm as [? ?]. auto.
  - apply last_None in Hm.
    assert (n ∈ filter P nodes) as Hin by (by apply list_elem_of_filter).
    rewrite Hm in Hin. by inversion Hin.
Qed.

Lemma last_filter_none (P : node -> Prop) `{forall n, Decision (P n)} nodes :
  (forall m, m ∈ nodes -> ¬ P m) ->
  from_option nd_cluster_name Unknown (last (filter P nodes)) = Unknown.
Proof.
  intros Hnone.
  destruct (last (filter P nodes)) as [m|] eqn:Hm; simpl; [|done].
  apply last_Some_elem_of, list_elem_of_filter in Hm as [? ?].
  by destruct (Hnone m).
Qed.
End Enrichment.

Lemma raw_coords_start (n : node) (e : edge) :
  node_coord n = start_coord e <-> (nd_x n, nd_y n) = (ed_x0 e, ed_y0 e).
Proof. apply node_coord_inj. Qed.

Lemma raw_coords_end (n : node) (e : edge) :
  node_coord n = end_coord e <-> (nd_x n, nd_y n) = (ed_x1 e, ed_y1 e).
Proof. apply node_coord_inj. Qed.

(** ** What the two pages put in their payload *)

Lemma bind_Ok_inv {A B} (m : py A) (f : A -> py B) (b : B) :
  (x ← m; f x) = Ok b -> exists a, m = Ok a ∧ f a = Ok b.
Proof. destruct m as [a|]; simpl; [eauto|done]. Qed.

Ltac py_inv H :=
  repeat (let a := fresh "v" in
          let Ha := fresh "Hv" in
          apply bind_Ok_inv in H as (a & Ha & H)).

Lemma py_map_nested_length {A B C} (rows : A -> list B) (f : A -> B -> py C)
    (l : list A) (yss : list (list C)) :
  py_map (fun a => py_map (f a) (rows a)) l = Ok yss ->
  length (concat yss) = sum_list_with (fun a => length (rows a)) l.
Proof.
  revert yss. induction l as [|a l IH]; intros yss; simpl.
  - by intros [= <-].
  - intros H. py_inv H. injection H as <-. simpl.
    rewrite length_app, (IH v0) by done.
    by rewrite (py_map_length _ _ _ Hv).
Qed.

Section Counting.
Context {A K : Type} `{EqDecision K} (key : A -> option K).
Implicit Types (l : list A) (ks : list K) (k : option K).

Lemma sum_list_with_plus (f g : K -> nat) ks :
  sum_list_with (fun c => f c + g c)%nat ks
  = (sum_list_with f ks + sum_list_with g ks)%nat.
Proof. induction ks as [|c ks IH]; simpl; lia. Qed.

Lemma sum_indicator k ks :
  NoDup ks ->
  sum_list_with (fun c => if decide (k = Some c) then 1 else 0)%nat ks
  = (if decide (k ∈ Some <$> ks) then 1 else 0)%nat.
Proof.
  induction 1 as [|c ks Hc Hnd IH]; simpl.
  - destruct (decide (k ∈ [])) as [H|_]; [by inversion H|done].
  - rewrite IH. clear IH.
    assert (Some c ∉ Some <$> ks) as Hc'.
    { intros H. apply list_elem_of_fmap in H as (c' & [= ->] & H). done. }
    repeat case_decide; subst; try done;
      match goal with
      | H : _ ∈ _ :: _ |- _ => apply elem_of_cons in H as [?|?]; by subst
      | H : ¬ _ ∈ _ :: _ |- _ => exfalso; apply H; by constructor
      end.
Qed.

(** Table rows grouped under distinct keys add up to the rows that have one
    of the keys. *)
Lemma sum_groups ks l :
  NoDup ks ->
  sum_list_with (fun c => length (filter (fun a => key a = Some c) l)) ks
  = length (filter (fun a => key a ∈ Some <$> ks) l).
Proof.
  intros Hnd. induction l as [|a l IH].
  - simpl. clear Hnd. induction ks as [|c ks IH]; simpl; [done|].
    by rewrite IH.
  - rewrite (filter_cons (fun a => key a ∈ Some <$> ks)).
    transitivity
      (sum_list_with (fun c => if decide (key a = Some c) then 1 else 0) ks
       + sum_list_with
           (fun c => length (filter (fun a => key a = Some c) l)) ks)%nat.
    + rewrite <- sum_list_with_plus. clear.
      induction ks as [|c ks IH]; simpl; [done|].
      rewrite IH, filter_cons. by destruct (decide (key a = Some c)).
    + rewrite IH, sum_indicator by done.
      by destruct (decide (key a ∈ Some <$> ks)).
Qed.
End Counting.

Lemma filter_ext_in {A} (P1 P2 : A -> Prop)
    `{!forall x, Decision (P1 x), !forall x, Decision (P2 x)} (l : list A) :
  (forall x, x ∈ l -> P1 x <-> P2 x) -> filter P1 l = filter P2 l.
Proof.
  induction l as [|a l IH]; intros Hext; [done|].
  rewrite !filter_cons.
  rewrite IH by (intros; apply Hext; by right).
  pose proof (Hext a (list_elem_of_here _ _)).
  destruct (decide (P1 a)), (decide (P2 a)); tauto.
Qed.

Lemma sum_list_with_fmap {A B} (f : B -> nat) (g : A -> B) (l : list A) :
  sum_list_with f (g <$> l) = sum_list_with (fun a => f (g a)) l.
Proof. induction l as [|a l IH]; csimpl; [done|]. by rewrite IH. Qed.

Lemma sum_named_groups (nodes : list node) :
  sum_list_with
    (fun c => length (filter (fun n => nd_cluster_name n = Some c) nodes))
    (sorted_strings (unique (omap nd_cluster_name nodes)))
  = length (filter has_cluster nodes).
Proof.
  rewrite sum_groups by apply NoDup_py_sorted, NoDup_unique.
  f_equal. apply filter_ext_in. intros n Hn. unfold has_cluster.
  rewrite list_elem_of_fmap. split.
  - intros (c & -> & _). by eexists.
  - intros [c Hc]. exists c. split; [done|].
    unfold sorted_strings.
    rewrite elem_of_py_sorted, elem_of_unique, list_elem_of_omap.
    by exists n.
Qed.

Lemma filter_has_cluster_all (nodes : list node) :
  None ∉ nd_cluster_name <$> nodes -> filter has_cluster nodes = nodes.
Proof.
  intros H. induction nodes as [|n nodes IH]; [done|].
  rewrite filter_cons_True.
  - f_equal. apply IH. intros ?. apply H. by right.
  - unfold has_cluster. destruct (nd_cluster_name n) eqn:E; [by eexists|].
    exfalso. apply H. simpl. rewrite E. by left.
Qed.

Module ComplexPayload.
Import Complex.

(** What the visualisation holds when the function returns one. *)
Lemma visualization_arrays rd p :
  create_dynamic_visualization_html rd = Ok (Visualization p) ->
  edge_data p = enrich_edge (nodes_quarter rd) <$> edges_quarter rd
  ∧ length (node_data p) = length (filter has_cluster (nodes_quarter rd)).
Proof.
  unfold create_dynamic_visualization_html.
  destruct (decide (length (nodes_quarter rd) = 0%nat)); [done|].
  intros H. py_inv H. injection H as <-. simpl. split; [done|].
  rewrite (py_map_nested_length _ _ _ _ Hv). apply sum_named_groups.
Qed.
End ComplexPayload.

Module SimplePayload.
Import Simple.

Lemma sum_cluster_rows (nodes : list node) (ucs : list (option string)) :
  sorted_clusters_with_null (unique (nd_cluster_name <$> nodes)) = Ok ucs ->
  sum_list_with (fun c => length (cluster_rows nodes c)) ucs
  = length (filter has_cluster nodes).
Proof.
  unfold sorted_clusters_with_null.
  set (l := unique (nd_cluster_name <$> nodes)).
  destruct (decide (None ∈ l)) as [Hnone|Hnone].
  - destruct l as [|k [|]] eqn:El; try done.
    intros [= <-]. apply list_elem_of_singleton in Hnone as <-. simpl.
    symmetry. apply length_zero_iff_nil.
    induction nodes as [|n nodes IH]; [done|].
    assert (forall m, m ∈ n :: nodes -> nd_cluster_name m = None) as Hall.
    { intros m Hm.
      assert (nd_cluster_name m ∈ l) as Hin.
      { unfold l. rewrite elem_of_unique. by apply list_elem_of_fmap_2. }
      rewrite El in Hin. by apply list_elem_of_singleton in Hin. }
    clear -Hall. induction nodes as [|m nodes IH] in n, Hall |- *.
    + rewrite filter_cons_False; [done|].
      unfold has_cluster. rewrite Hall by (by left). by intros [? ?].
    + rewrite filter_cons_False.
      * apply IH. intros ??. apply Hall. by right.
      * unfold has_cluster. rewrite Hall by (by left). by intros [? ?].
  - intros [= <-]. rewrite sum_list_with_fmap. simpl.
    assert (omap (fun c => c) l ≡ₚ unique (omap nd_cluster_name nodes)) as Hp.
    { apply NoDup_Permutation.
      - unfold l. clear.
        assert (NoDup (unique (nd_cluster_name <$> nodes))) as H
          by apply NoDup_unique.
        induction H as [|[c|] ks Hc Hnd IH]; simpl; [constructor| |done].
        constructor; [|done]. rewrite list_elem_of_omap.
        intros (k & Hk & ->). done.
      - apply NoDup_unique.
      - intros c. unfold l.
        rewrite elem_of_unique, !list_elem_of_omap.
        setoid_rewrite elem_of_unique. setoid_rewrite list_elem_of_fmap.
        split.
        + intros (k & (n & -> & Hn) & Hk). eauto.
        + intros (n & Hn & Hk). exists (Some c). split; [|done]. eauto. }
    rewrite <- sum_named_groups. unfold sorted_strings.
    apply sum_list_with_Permutation_proper.
    by rewrite !py_sorted_Permutation.
Qed.
End SimplePayload.

Module SimplePage.
Import Simple.

(** What the page holds when [run] returns. *)
Lemma run_page df_nodes df_edges pg :
  run df_nodes df_edges = Ok pg ->
  total_nodes pg = length df_nodes
  ∧ connected_nodes pg = length (connected df_nodes df_edges)
  ∧ edge_data (shown pg)
    = enrich_edge (connected df_nodes df_edges) <$> df_edges
  ∧ length (node_data (shown pg))
    = length (filter has_cluster (connected df_nodes df_edges)).
Proof.
  unfold run. intros H. py_inv H. injection H as <-. simpl.
  split_and!; try done.
  rewrite (py_map_nested_length _ _ _ _ Hv1).
  by apply SimplePayload.sum_cluster_rows.
Qed.

Lemma run_empty df_edges : run [] df_edges = Raise ZeroDivisionError.
Proof. done. Qed.
End SimplePage.

(** C1. [calculate_river_flow_data] never raises and its rate is
    [connected_count / total_nodes * 100], or 0 for a period without nodes;
    the simpler page divides [connected_nodes] by [total_nodes] with no
    guard, and on an empty node table its [run] stops with a
    [ZeroDivisionError]. *)
Theorem rate_guarded_in_one_page_only :
  (forall df_nodes df_edges q,
     exists rd,
       Complex.calculate_river_flow_data df_nodes df_edges q = Ok rd
       ∧ (Complex.total_nodes rd = 0%nat ->
          Complex.co_occurrence_rate rd = Z2Qc 0)
       ∧ (Complex.total_nodes rd <> 0%nat ->
          Complex.co_occurrence_rate rd
          = (Z2Qc (Z.of_nat (Complex.connected_count rd))
             / Z2Qc (Z.of_nat (Complex.total_nodes rd)) * Z2Qc 100)%Qc))
  ∧ (forall df_nodes df_edges pg,
       Simple.run df_nodes df_edges = Ok pg ->
       Simple.info_rate pg
       = (Z2Qc (Z.of_nat (Simple.connected_nodes pg))
          / Z2Qc (Z.of_nat (Simple.total_nodes pg)) * Z2Qc 100)%Qc)
  ∧ (forall df_edges, Simple.run [] df_edges = Raise ZeroDivisionError).
Proof.
  split_and!.
  - intros df_nodes df_edges q.
    destruct (ComplexFacts.calculate_river_flow_data_ok df_nodes df_edges q)
      as [stats ->].
    eexists. split; [done|]. simpl.
    split; intros H; [by rewrite decide_True|by rewrite decide_False].
  - intros df_nodes df_edges pg. unfold Simple.run, py_truediv.
    intros H. py_inv H. injection H as <-. simpl.
    destruct (decide (Z.of_nat (length df_nodes) = 0)); [done|].
    by injection Hv as <-.
  - apply SimplePage.run_empty.
Qed.

(** Both pages build one record per edge, and a side is named by coordinate
    match: "Unknown" when no node lies at that end, the node's cluster when
    one node lies there, for the end side provided the two ends differ. *)
Lemma enrich_edge_resolution (nodes : list node) (edges : list edge) :
  length (enrich_edge nodes <$> edges) = length edges
  ∧ forall e, 
      let h := e_hover_text (enrich_edge nodes e) in
      ((forall m, m ∈ nodes -> (nd_x m, nd_y m) <> (ed_x0 e, ed_y0 e)) ->
       eh_start_cluster h = Unknown)
      ∧ ((forall m, m ∈ nodes -> (nd_x m, nd_y m) <> (ed_x1 e, ed_y1 e)) ->
         eh_end_cluster h = Unknown)
      ∧ (forall n, n ∈ nodes -> (nd_x n, nd_y n) = (ed_x0 e, ed_y0 e) ->
           (forall m, m ∈ nodes -> (nd_x m, nd_y m) = (nd_x n, nd_y n) -> m = n) ->
           eh_start_cluster h = nd_cluster_name n)
      ∧ (forall n, n ∈ nodes -> (nd_x n, nd_y n) = (ed_x1 e, ed_y1 e) ->
           (ed_x0 e, ed_y0 e) <> (ed_x1 e, ed_y1 e) ->
           (forall m, m ∈ nodes -> (nd_x m, nd_y m) = (nd_x n, nd_y n) -> m = n) ->
           eh_end_cluster h = nd_cluster_name n).
Proof.
  split; [by rewrite length_fmap|].
  intros e. unfold enrich_edge. cbn [e_hover_text eh_start_cluster eh_end_cluster].
  rewrite edge_clusters_spec. cbn [fst snd].
  split_and!.
  - intros Hno. apply last_filter_none. intros m Hm.
    rewrite raw_coords_start. by apply Hno.
  - intros Hno. apply last_filter_none. intros m Hm [He _].
    apply raw_coords_end in He. by apply (Hno m).
  - intros n Hn Hpos Huniq. apply last_filter_unique; [done| |].
    + by apply raw_coords_start.
    + intros m Hm Hpm. f_equal. apply Huniq; [done|].
      apply raw_coords_start in Hpm. congruence.
  - intros n Hn Hpos Hne Huniq. apply last_filter_unique; [done| |].
    + split; [by apply raw_coords_end|].
      rewrite raw_coords_start. congruence.
    + intros m Hm [Hpm _]. f_equal. apply Huniq; [done|].
      apply raw_coords_end in Hpm. congruence.
Qed.

(** C5. On an edge that starts and ends on the same node the scan never
    reaches its [elif]: the node lies at the end position, yet the end side
    of the record stays "Unknown". The start side is resolved, and the edge
    still gets its record. *)
Theorem end_side_unresolved_on_loop_edge :
  let h := e_hover_text (enrich_edge [Examples.lone_node] Examples.loop_edge) in
  (nd_x Examples.lone_node, nd_y Examples.lone_node)
    = (ed_x1 Examples.loop_edge, ed_y1 Examples.loop_edge)
  ∧ nd_cluster_name Examples.lone_node = Some "Awareness"%string
  ∧ eh_start_cluster h = Some "Awareness"%string
  ∧ eh_end_cluster h = Some "Unknown"%string
  ∧ length (enrich_edge [Examples.lone_node] <$> [Examples.loop_edge]) = 1%nat.
Proof. by vm_compute. Qed.

(** C10. For every edge whose two ends have equal coordinates and every node
    table with a node at that position (the only one there), the record names
    the start side by that node's cluster and leaves the end side
    "Unknown". *)
Theorem loop_edge_resolves_start_only (nodes : list node) (e : edge) (n : node) :
  (ed_x0 e, ed_y0 e) = (ed_x1 e, ed_y1 e) ->
  n ∈ nodes ->
  (nd_x n, nd_y n) = (ed_x0 e, ed_y0 e) ->
  (forall m, m ∈ nodes -> (nd_x m, nd_y m) = (nd_x n, nd_y n) -> m = n) ->
  eh_start_cluster (e_hover_text (enrich_edge nodes e)) = nd_cluster_name n
  ∧ eh_end_cluster (e_hover_text (enrich_edge nodes e)) = Some "Unknown"%string.
Proof.
  intros Hloop Hn Hpos Huniq.
  split.
  { destruct (enrich_edge_resolution nodes []) as [_ H].
    destruct (H e) as (_ & _ & Hs & _). by apply Hs. }
  unfold enrich_edge. cbn [e_hover_text eh_end_cluster].
  rewrite edge_clusters_spec. cbn [snd].
  apply last_filter_none. intros m _ [He Hs]. apply Hs.
  apply raw_coords_start. apply raw_coords_end in He. congruence.
Qed.

Lemma loop_edge_resolves_start_only_witness :
  eh_start_cluster
    (e_hover_text (enrich_edge [Examples.lone_node] Examples.loop_edge))
    = nd_cluster_name Examples.lone_node
  ∧ eh_end_cluster
      (e_hover_text (enrich_edge [Examples.lone_node] Examples.loop_edge))
    = Some "Unknown"%string.
Proof.
  apply (loop_edge_resolves_start_only
           [Examples.lone_node] Examples.loop_edge Examples.lone_node).
  - by vm_compute.
  - by left.
  - by vm_compute.
  - intros m Hm _. by apply list_elem_of_singleton in Hm.
Defined.

(** C8, as the code has it. The edge array of a payload has one entry per
    edge row, so its length is [total_edges]. The node array is filled
    cluster by cluster: in [create_dynamic_visualization_html] it holds the
    period's nodes that have a cluster name, all [total_nodes] of them when
    none is null; in the simpler page it holds the connected nodes that have a
    cluster name, so at most [connected_nodes] of the [total_nodes]. *)
Theorem payload_array_lengths :
  (forall df_nodes df_edges q rd p,
     Complex.calculate_river_flow_data df_nodes df_edges q = Ok rd ->
     Complex.create_dynamic_visualization_html rd = Ok (Complex.Visualization p) ->
     length (edge_data p) = Complex.total_edges rd
     ∧ length (node_data p)
       = length (filter has_cluster (Complex.nodes_quarter rd))
     ∧ (length (node_data p) <= Complex.total_nodes rd)%nat
     ∧ (None ∉ nd_cluster_name <$> Complex.nodes_quarter rd ->
        length (node_data p) = Complex.total_nodes rd))
  ∧ (forall df_nodes df_edges pg,
       Simple.run df_nodes df_edges = Ok pg ->
       length (edge_data (Simple.shown pg)) = length df_edges
       ∧ length (node_data (Simple.shown pg))
         = length (filter has_cluster (Simple.connected df_nodes df_edges))
       ∧ (length (node_data (Simple.shown pg)) <= Simple.connected_nodes pg)%nat
       ∧ (Simple.connected_nodes pg <= Simple.total_nodes pg)%nat).
Proof.
  split.
  - intros df_nodes df_edges q rd p Hrd Hp.
    destruct (ComplexFacts.calculate_river_flow_data_ok df_nodes df_edges q)
      as [stats Hok].
    rewrite Hok in Hrd. injection Hrd as <-.
    apply ComplexPayload.visualization_arrays in Hp as [He Hn]. simpl in *.
    rewrite He, Hn, length_fmap.
    split_and!; try done.
    + apply length_filter.
    + intros Hnone. by rewrite filter_has_cluster_all.
  - intros df_nodes df_edges pg Hpg.
    apply SimplePage.run_page in Hpg as (-> & -> & -> & ->).
    rewrite length_fmap. split_and!; try done; apply length_filter.
Qed.

Lemma payload_array_lengths_witness :
  exists pg,
    Simple.run Examples.three_nodes Examples.one_edge = Ok pg
    ∧ length (edge_data (Simple.shown pg)) = 1%nat
    ∧ length (node_data (Simple.shown pg)) = 2%nat.
Proof.
  assert (exists pg, Simple.run Examples.three_nodes Examples.one_edge = Ok pg)
    as [pg Hpg] by (eexists; reflexivity).
  exists pg. split; [done|].
  destruct (proj2 payload_array_lengths _ _ _ Hpg) as (-> & -> & _).
  split; reflexivity.
Defined.

(** C8 as stated fails: with three nodes of which one is on no edge the
    simpler page reports [total_nodes = 3] and sends two nodes; with a node
    that has no cluster name the other page reports [total_nodes = 2] and
    sends one. *)
Lemma node_array_shorter_than_total_nodes :
  (exists pg,
     Simple.run Examples.three_nodes Examples.one_edge = Ok pg
     ∧ Simple.total_nodes pg = 3%nat
     ∧ length (node_data (Simple.shown pg)) = 2%nat
     ∧ length (node_data (Simple.shown pg)) <> Simple.total_nodes pg)
  ∧ (exists rd p,
       Complex.calculate_river_flow_data
         Examples.unnamed_pair Examples.one_edge "2024Q1" = Ok rd
       ∧ Complex.create_dynamic_visualization_html rd
         = Ok (Complex.Visualization p)
       ∧ Complex.total_nodes rd = 2%nat
       ∧ length (node_data p) = 1%nat
       ∧ length (node_data p) <> Complex.total_nodes rd).
Proof.
  split.
  - eexists. split; [reflexivity|]. by split_and!.
  - eexists. eexists. split; [reflexivity|]. split; [reflexivity|].
    by split_and!.
Qed.

(** ** Node scores *)




(** ** Centroids *)






(** ** Label layout *)







(** ** Co-occurrence ranking *)

Section DictFacts.
Context {K : Type} `{EqDecision K}.
Implicit Types (k : K) (ks : list K) (l : list (K * Qc)) (f : K -> Qc).

Lemma Qc_sum_snoc (ws : list Qc) (w : Qc) : Qc_sum (ws ++ [w]) = (Qc_sum ws + w)%Qc.
Proof.
  induction ws as [|a ws IH]; simpl.
  - ring.
  - rewrite IH. ring.
Qed.

Lemma unique_snoc (l : list K) (x : K) :
  unique (l ++ [x]) = if decide (x ∈ l) then unique l else unique l ++ [x].
Proof.
  induction l as [|a l IH]; simpl; [done|].
  - rewrite IH. clear IH.
    destruct (decide (x ∈ l)) as [Hx|Hx]; destruct (decide (x ∈ a :: l)) as [Hx'|Hx'].
    + done.
    + exfalso. apply Hx'. by right.
    + apply elem_of_cons in Hx' as [->|?]; [|done].
      rewrite filter_app, filter_cons, filter_nil.
      case_decide; [done|]. by rewrite app_nil_r.
    + rewrite filter_app, filter_cons, filter_nil.
      case_decide as Hne; [done|].
      exfalso. apply Hx'. subst. by left.
Qed.

Lemma sum_for_snoc k l (p : K * Qc) :
  sum_for k (l ++ [p])
  = if decide (p.1 = k) then (sum_for k l + p.2)%Qc else sum_for k l.
Proof.
  unfold sum_for. rewrite filter_app, filter_cons, filter_nil.
  destruct (decide (p.1 = k)).
  - rewrite fmap_app. apply Qc_sum_snoc.
  - by rewrite app_nil_r.
Qed.

Lemma sum_for_absent k l : k ∉ l.*1 -> sum_for k l = Q2Qc 0.
Proof.
  intros Hk. unfold sum_for.
  replace (filter (fun p => p.1 = k) l) with (@nil (K * Qc)); [done|].
  symmetry. induction l as [|p l IH]; [done|].
  rewrite filter_cons_False.
  - apply IH. intros ?. apply Hk. by right.
  - intros E. apply Hk. rewrite <- E. by left.
Qed.

Lemma dict_get_table f ks k (d : Qc) :
  dict_get ((fun k => (k, f k)) <$> ks) k d
  = if decide (k ∈ ks) then f k else d.
Proof.
  induction ks as [|a ks IH]; csimpl; [done|].
  - rewrite IH. clear IH.
    destruct (decide (a = k)) as [->|Hne].
    + case_decide as Hx; [done|]. exfalso. apply Hx. by left.
    + repeat case_decide; try done.
      * exfalso. by eauto using list_elem_of_further.
      * match goal with H : k ∈ a :: ks |- _ =>
          apply elem_of_cons in H as [?|?]; by subst end.
Qed.

Lemma dict_set_table f ks k (v : Qc) :
  NoDup ks ->
  dict_set ((fun k => (k, f k)) <$> ks) k v
  = if decide (k ∈ ks)
    then (fun k' => (k', if decide (k' = k) then v else f k')) <$> ks
    else ((fun k => (k, f k)) <$> ks) ++ [(k, v)].
Proof.
  induction 1 as [|a ks Ha Hnd IH]; csimpl; [done|].
  - destruct (decide (a = k)) as [->|Hne].
    + clear IH. case_decide as Hx; [|exfalso; apply Hx; by left].
      f_equal. apply list_fmap_ext. intros i k' Hk'.
      case_decide; [|done]. subst. by apply list_elem_of_lookup_2 in Hk'.
    + rewrite IH. clear IH.
      repeat case_decide; try done.
      * exfalso. by eauto using list_elem_of_further.
      * match goal with H : k ∈ a :: ks |- _ =>
          apply elem_of_cons in H as [?|?]; by subst end.
Qed.
End DictFacts.

Lemma Qc_sum_app (a b : list Qc) : Qc_sum (a ++ b) = (Qc_sum a + Qc_sum b)%Qc.
Proof.
  induction a as [|x a IH]; simpl.
  - by rewrite Qcplus_0_l.
  - by rewrite IH, Qcplus_assoc.
Qed.

Module RankingFacts.
Import Complex.

(** The dictionary after the accumulation loop: the keys in the order they
    were first met, each with the sum of its weights. *)
Lemma co_occurrence_counts_table (l : list (option string * Qc)) :
  co_occurrence_counts l = (fun k => (k, sum_for k l)) <$> unique (l.*1).
Proof.
  unfold co_occurrence_counts.
  induction l as [|p l IH] using rev_ind; [done|].
  rewrite foldl_app, IH. cbn [foldl]. unfold count_step. clear IH.
  rewrite dict_get_table, dict_set_table by apply NoDup_unique.
  rewrite fmap_app. cbn [fmap list_fmap]. rewrite unique_snoc.
  assert ((if decide (p.1 ∈ unique (l.*1)) then sum_for p.1 l else Q2Qc 0)
          = sum_for p.1 l) as ->.
  { case_decide as Hin; [done|]. symmetry. apply sum_for_absent.
    by rewrite elem_of_unique in Hin. }
  destruct (decide (p.1 ∈ unique (l.*1))) as [Hin|Hin].
  - rewrite decide_True by (by rewrite elem_of_unique in Hin).
    apply list_fmap_ext. intros i k Hk. f_equal.
    rewrite sum_for_snoc. by repeat case_decide; subst.
  - rewrite decide_False by (by rewrite elem_of_unique in Hin).
    rewrite fmap_app. f_equal.
    + apply list_fmap_ext. intros i k Hk. f_equal.
      rewrite sum_for_snoc. case_decide; [|done].
      subst. by apply list_elem_of_lookup_2 in Hk.
    + simpl. rewrite sum_for_snoc. by rewrite decide_True.
Qed.

(** The loop over the edges appends what the specification attributes. *)
Lemma cluster_edge_spec (nodes_q : list node) (cluster : string) (e : edge) :
  cluster_edge nodes_q cluster e
  = match RankingSpec.other_cluster nodes_q cluster e with
    | Some o => [(o, ed_weight e)]
    | None => []
    end.
Proof.
  unfold cluster_edge, RankingSpec.other_cluster, RankingSpec.resolves_to.
  destruct (nodes_at nodes_q (ed_x0 e) (ed_y0 e)) as [|s ?]; [done|].
  destruct (nodes_at nodes_q (ed_x1 e) (ed_y1 e)) as [|t ?]; [done|].
  simpl.
  destruct (decide (nd_cluster_name s = nd_cluster_name t)) as [E|E];
    destruct (decide (nd_cluster_name s = Some cluster)) as [Es|Es];
    destruct (decide (nd_cluster_name t = Some cluster)) as [Et|Et];
    rewrite ?(bool_decide_eq_true_2 _ Es), ?(bool_decide_eq_false_2 _ Es),
            ?(bool_decide_eq_true_2 _ Et), ?(bool_decide_eq_false_2 _ Et);
    simpl; try congruence.
  - rewrite bool_decide_eq_false_2; [done|]. intros H. by apply H.
  - by rewrite bool_decide_eq_true_2.
Qed.

Lemma cluster_edges_sum nodes_q edges_q cluster o :
  sum_for o (cluster_edges nodes_q edges_q cluster)
  = RankingSpec.accumulated nodes_q edges_q cluster o.
Proof.
  unfold cluster_edges, RankingSpec.accumulated, sum_for.
  induction edges_q as [|e edges_q IH]; [done|].
  csimpl. rewrite filter_app, fmap_app, cluster_edge_spec, filter_cons.
  rewrite Qc_sum_app, IH. clear IH.
  destruct (RankingSpec.other_cluster nodes_q cluster e) as [o'|] eqn:Eo.
  - rewrite filter_cons, filter_nil. simpl.
    destruct (decide (o' = o)) as [->|Hne].
    + rewrite decide_True by done. simpl. by rewrite Qcplus_0_r.
    + rewrite decide_False by congruence. simpl. by rewrite Qcplus_0_l.
  - rewrite filter_nil, decide_False by done. simpl. by rewrite Qcplus_0_l.
Qed.



End RankingFacts.



(** On the sample tables: around "A" the clusters "B" and "C" tie at 5, "B"
    met first; "D" has 7 and "E" has 2; the edge from "A" to itself and the
    edge between "B" and "C" give nothing. *)
Example ranking_sample :
  py_sorted Complex.by_weight_desc
    (Complex.co_occurrence_counts
       (Complex.cluster_edges Examples.ranking_nodes Examples.ranking_edges "A"))
  = [(Some "D", Z2Qc 7); (Some "B", Z2Qc 5); (Some "C", Z2Qc 5);
     (Some "E", Z2Qc 2)]%string
  ∧ Complex.top_co_occurrences Examples.ranking_nodes Examples.ranking_edges "A"
    = [(Some "D", Z2Qc 7); (Some "B", Z2Qc 5)]%string.
Proof. split; by vm_compute. Qed.

(** ** Time-of-day colours *)

(** For every hour the text colour is black from 5 to 16 o'clock and white
    otherwise, and the background gradient runs from the primary to the
    secondary colour of the scheme. *)
Theorem time_colors_text_and_gradient (hour : Z) :
  (TimeColors.text_color (TimeColors.get_time_colors hour) = "black"%string
   <-> 5 <= hour < 17)
  ∧ (TimeColors.text_color (TimeColors.get_time_colors hour) = "white"%string
     <-> ¬ 5 <= hour < 17)
  ∧ TimeColors.bg_gradient (TimeColors.get_time_colors hour)
    = String.append "linear-gradient(135deg, "
        (String.append (TimeColors.primary (TimeColors.get_time_colors hour))
           (String.append " 0%, "
              (String.append
                 (TimeColors.secondary (TimeColors.get_time_colors hour))
                 " 100%)"))).
Proof.
  unfold TimeColors.get_time_colors.
  destruct (Z.leb_spec 5 hour), (Z.ltb_spec hour 8),
           (Z.leb_spec 8 hour), (Z.ltb_spec hour 12),
           (Z.leb_spec 12 hour), (Z.ltb_spec hour 17),
           (Z.leb_spec 17 hour), (Z.ltb_spec hour 20);
    try lia; simpl; (split_and!; [split; [try done; lia|try done; lia]
                                 |split; [try done; lia|try done; lia]
                                 |reflexivity]).
Qed.

(** ** Period index *)


Module PeriodIndexFacts.
Import PeriodIndex.

Lemma reverse_label_map_snoc qs q :
  reverse_label_map (qs ++ [q])
  = d ← reverse_label_map qs; l ← quarter_label q; Some (dict_set d l q).
Proof. unfold reverse_label_map. by rewrite foldl_app. Qed.


Lemma reverse_label_map_Some qs labels :
  quarter_labels qs = Some labels -> is_Some (reverse_label_map qs).
Proof.
  revert labels. induction qs as [|q qs IH] using rev_ind; intros labels.
  - by eexists.
  - unfold quarter_labels. rewrite mapM_Some. intros H.
    apply Forall2_app_inv_l in H as (l1 & l2 & H1 & H2 & ->).
    apply Forall2_cons_inv_l in H2 as (lq & ? & Hq & _ & ->).
    destruct (IH l1) as [d Hd]; [by apply mapM_Some|].
    rewrite reverse_label_map_snoc, Hd. simpl. rewrite Hq. by eexists.
Qed.





End PeriodIndexFacts.





(** ** The order of strings *)

Lemma String_compare_trans_Lt (s1 s2 s3 : string) :
  String.compare s1 s2 = Lt -> String.compare s2 s3 = Lt ->
  String.compare s1 s3 = Lt.
Proof.
  revert s2 s3. induction s1 as [|c1 s1 IH]; intros [|c2 s2] [|c3 s3];
    simpl; try done.
  unfold Ascii.compare.
  destruct (N.compare_spec (Ascii.N_of_ascii c1) (Ascii.N_of_ascii c2)) as [E12|L12|G12];
    destruct (N.compare_spec (Ascii.N_of_ascii c2) (Ascii.N_of_ascii c3)) as [E23|L23|G23];
    try done; intros H12 H23.
  - rewrite E12, E23, N.compare_refl. by eapply IH.
  - rewrite E12. by apply N.compare_lt_iff in L23 as ->.
  - rewrite <- E23. by apply N.compare_lt_iff in L12 as ->.
  - assert (Ascii.N_of_ascii c1 < Ascii.N_of_ascii c3)%N as L13 by lia.
    by apply N.compare_lt_iff in L13 as ->.
Qed.

Lemma String_leb_trans (s1 s2 s3 : string) :
  String.leb s1 s2 = true -> String.leb s2 s3 = true -> String.leb s1 s3 = true.
Proof.
  unfold String.leb.
  destruct (String.compare s1 s2) eqn:H12; [| |done].
  - apply String.compare_eq_iff in H12 as ->. done.
  - intros _. destruct (String.compare s2 s3) eqn:H23; [| |done].
    + apply String.compare_eq_iff in H23 as <-. by rewrite H12.
    + by rewrite (String_compare_trans_Lt _ _ _ H12 H23).
Qed.

(** ** Statistics of a period *)

Lemma py_map_Ok_fmap {A B} (f : A -> py B) (g : A -> B) (l : list A) :
  (forall x, x ∈ l -> f x = Ok (g x)) -> py_map f l = Ok (g <$> l).
Proof.
  induction l as [|x l IH]; intros H; simpl; [done|].
  rewrite (H x) by (by left). simpl.
  rewrite IH by (intros; apply H; by right). done.
Qed.



Module StatsFacts.
Import Complex.

(** The statistics the cluster loop stores, written out. *)
Lemma tributary_stats_explicit df_nodes df_edges q :
  let nodes_q := filter (fun n => nd_quarter n = q) df_nodes in
  let edges_q := filter (fun e => ed_quarter e = q) df_edges in
  exists rd,
    calculate_river_flow_data df_nodes df_edges q = Ok rd
    ∧ nodes_quarter rd = nodes_q
    ∧ edges_quarter rd = edges_q
    ∧ total_nodes rd = length nodes_q
    ∧ tributary_stats rd
      = (fun c =>
           let cluster_nodes :=
             filter (fun n => nd_cluster_name n = Some c) nodes_q in
           (c, {| count := length cluster_nodes;
                  percentage :=
                    (Z2Qc (Z.of_nat (length cluster_nodes))
                     / Z2Qc (Z.of_nat (length nodes_q)) * Z2Qc 100)%Qc;
                  avg_sentiment := series_mean (nd_sentiment <$> cluster_nodes);
                  co_occurrences := top_co_occurrences nodes_q edges_q c |}))
        <$> sorted_strings (unique (omap nd_cluster_name nodes_q)).
Proof.
  intros nodes_q edges_q. unfold calculate_river_flow_data.
  fold nodes_q. fold edges_q. rewrite ComplexFacts.rate_spec. simpl.
  erewrite py_map_Ok_fmap; [by eexists|].
  intros c Hc. unfold sorted_strings in Hc.
  rewrite elem_of_py_sorted, elem_of_unique in Hc.
  unfold cluster_stats, py_truediv.
  destruct (decide (Z.of_nat (length nodes_q) = 0)) as [E|_]; [|done].
  destruct nodes_q; [by inversion Hc|simpl in E; lia].
Qed.
End StatsFacts.

Lemma fmap_lookup_inv {A B} (f : A -> B) (l : list A) (y : B) :
  y ∈ f <$> l -> exists x, y = f x ∧ x ∈ l.
Proof. apply list_elem_of_fmap. Qed.

(** The cluster statistics of a period list its cluster names once each in
    sorted order; the count of a cluster is the number of the period's nodes
    with that name and is at least one; and the counts add up to the number
    of nodes that have a cluster name. *)
Theorem tributary_counts (df_nodes : list node) (df_edges : list edge) (q : string) :
  exists rd,
    Complex.calculate_river_flow_data df_nodes df_edges q = Ok rd
    ∧ NoDup (Complex.tributary_stats rd).*1
    ∧ (forall c1 c2,
         precedes (Complex.tributary_stats rd).*1 c1 c2 ->
         String.leb c1 c2 = true)
    ∧ (forall c,
         c ∈ (Complex.tributary_stats rd).*1 <->
         exists n, n ∈ Complex.nodes_quarter rd ∧ nd_cluster_name n = Some c)
    ∧ (forall c t,
         (c, t) ∈ Complex.tributary_stats rd ->
         Complex.count t
         = length (filter (fun n => nd_cluster_name n = Some c)
                          (Complex.nodes_quarter rd))
         ∧ (1 <= Complex.count t)%nat)
    ∧ sum_list_with (fun ct => Complex.count ct.2) (Complex.tributary_stats rd)
      = length (filter has_cluster (Complex.nodes_quarter rd)).
Proof.
  destruct (StatsFacts.tributary_stats_explicit df_nodes df_edges q)
    as (rd & Hrd & Hn & He & Ht & Hstats).
  exists rd. split; [done|]. rewrite Hstats, Hn.
  set (nodes_q := filter (fun n => nd_quarter n = q) df_nodes).
  rewrite <- list_fmap_compose.
  rewrite (list_fmap_ext _ (fun c => c) _) by done. rewrite list_fmap_id.
  split_and!.
  - apply NoDup_py_sorted, NoDup_unique.
  - intros c1 c2. unfold sorted_strings. apply py_sorted_ordered.
    + apply String.leb_total.
    + apply String_leb_trans.
  - intros c. unfold sorted_strings.
    by rewrite elem_of_py_sorted, elem_of_unique, list_elem_of_omap.
  - intros c t Hin. apply list_elem_of_fmap in Hin as (c' & [= -> ->] & Hc').
    simpl. split; [done|].
    unfold sorted_strings in Hc'.
    rewrite elem_of_py_sorted, elem_of_unique, list_elem_of_omap in Hc'.
    destruct Hc' as (n & Hn' & Hname).
    assert (n ∈ filter (fun n => nd_cluster_name n = Some c') nodes_q) as Hf
      by (by apply list_elem_of_filter).
    destruct (filter (fun n => nd_cluster_name n = Some c') nodes_q);
      [by inversion Hf|simpl; lia].
  - rewrite sum_list_with_fmap. simpl. apply sum_named_groups.
Qed.




Lemma percent_bounds (a b : Z) :
  0 <= a <= b -> 0 < b ->
  (Z2Qc 0 <= Z2Qc a / Z2Qc b * Z2Qc 100 <= Z2Qc 100)%Qc.
Proof.
  intros Ha Hb. destruct b as [|p|p]; try lia.
  unfold Qcle, Z2Qc, Qcdiv, Qcmult, Qcinv, Q2Qc. cbn [this].
  rewrite !Qred_correct.
  unfold Qle, Qmult, Qinv, inject_Z. simpl.
  split; nia.
Qed.

(** In both pages the connected nodes are never more than the nodes, and
    the rate shown lies between 0 and 100; so does the percentage of every
    cluster of a period. *)
Theorem rates_between_0_and_100 :
  (forall df_nodes df_edges q,
     exists rd,
       Complex.calculate_river_flow_data df_nodes df_edges q = Ok rd
       ∧ (Complex.connected_count rd <= Complex.total_nodes rd)%nat
       ∧ (Z2Qc 0 <= Complex.co_occurrence_rate rd <= Z2Qc 100)%Qc
       ∧ forall c t,
           (c, t) ∈ Complex.tributary_stats rd ->
           (Z2Qc 0 <= Complex.percentage t <= Z2Qc 100)%Qc)
  ∧ (forall df_nodes df_edges pg,
       Simple.run df_nodes df_edges = Ok pg ->
       (Simple.connected_nodes pg <= Simple.total_nodes pg)%nat
       ∧ (Z2Qc 0 <= Simple.info_rate pg <= Z2Qc 100)%Qc).
Proof.
  split.
  - intros df_nodes df_edges q.
    destruct (StatsFacts.tributary_stats_explicit df_nodes df_edges q)
      as (rd & Hrd & Hn & He & Ht & Hstats).
    exists rd. split; [done|].
    destruct (ComplexFacts.calculate_river_flow_data_ok df_nodes df_edges q)
      as [stats Hok].
    rewrite Hok in Hrd. injection Hrd as <-. simpl in *.
    set (nodes_q := filter (fun n => nd_quarter n = q) df_nodes) in *.
    split; [|split].
    + apply length_filter.
    + destruct (decide (length nodes_q = 0%nat)); [done|].
      apply percent_bounds; [|lia].
      split; [lia|]. apply inj_le, length_filter.
    + intros c t Hin. rewrite Hstats in Hin.
      apply list_elem_of_fmap in Hin as (c' & [= -> ->] & Hc'). simpl.
      assert (length (filter (fun n => nd_cluster_name n = Some c') nodes_q)
              <= length nodes_q)%nat as Hle by apply length_filter.
      destruct (decide (length nodes_q = 0%nat)) as [E|E].
      * rewrite E in *.
        replace (length (filter (fun n => nd_cluster_name n = Some c') nodes_q))
          with 0%nat by lia.
        done.
      * apply percent_bounds; lia.
  - intros df_nodes df_edges pg. unfold Simple.run, py_truediv.
    intros H. py_inv H. injection H as <-. simpl.
    destruct (decide (Z.of_nat (length df_nodes) = 0)); [done|].
    injection Hv as <-.
    assert (length (Simple.connected df_nodes df_edges) <= length df_nodes)%nat
      as Hle by apply length_filter.
    split; [done|]. apply percent_bounds; lia.
Qed.

Lemma accumulated_weight_lookup (nodes_q : list node) (edges_q : list edge)
    (cluster : string) (o : option string) :
  dict_get (Complex.co_occurrence_counts
              (Complex.cluster_edges nodes_q edges_q cluster)) o (Q2Qc 0)
  = RankingSpec.accumulated nodes_q edges_q cluster o.
Proof.
  rewrite RankingFacts.co_occurrence_counts_table, dict_get_table.
  rewrite RankingFacts.cluster_edges_sum.
  case_decide as Hin; [done|].
  rewrite elem_of_unique in Hin.
  rewrite <- RankingFacts.cluster_edges_sum. symmetry.
  by apply sum_for_absent.
Qed.

(** The weight that the accumulation for cluster [a] holds for cluster [b]
    is the weight that the accumulation for [b] holds for [a] (0 when no edge
    joins them): before the cut to the first two, co-occurrence is
    symmetric. *)
Theorem co_occurrence_weight_symmetric (nodes_q : list node)
    (edges_q : list edge) (a b : string) :
  dict_get (Complex.co_occurrence_counts
              (Complex.cluster_edges nodes_q edges_q a)) (Some b) (Q2Qc 0)
  = dict_get (Complex.co_occurrence_counts
                (Complex.cluster_edges nodes_q edges_q b)) (Some a) (Q2Qc 0).
Proof.
  rewrite !accumulated_weight_lookup. unfold RankingSpec.accumulated.
  f_equal. f_equal. apply list_filter_iff. intros e.
  unfold RankingSpec.other_cluster.
  destruct (RankingSpec.resolves_to nodes_q (ed_x0 e) (ed_y0 e)) as [s|];
    [|done].
  destruct (RankingSpec.resolves_to nodes_q (ed_x1 e) (ed_y1 e)) as [t|];
    [|done].
  simpl. repeat case_decide; split; intros; simplify_eq; done.
Qed.

(** In the simpler page the scan for an edge's clusters runs over the
    connected nodes only; for the edges of the table this loses nothing: every
    edge gets the record it would get from the whole node table, so a side is
    "Unknown" only where the whole table has no node (or through the [elif]
    on an edge joining a node to itself). *)
Theorem connected_subset_same_enrichment (df_nodes : list node)
    (df_edges : list edge) (e : edge) :
  e ∈ df_edges ->
  enrich_edge (Simple.connected df_nodes df_edges) e = enrich_edge df_nodes e.
Proof.
  intros He. unfold enrich_edge. rewrite !edge_clusters_spec. simpl.
  assert (forall P : node -> Prop, forall Hdec : (forall n, Decision (P n)),
    (forall n, P n -> node_coord n = start_coord e ∨ node_coord n = end_coord e) ->
    filter P (Simple.connected df_nodes df_edges) = filter P df_nodes) as Hf.
  { intros P Hdec HP. unfold Simple.connected.
    rewrite list_filter_filter. apply filter_ext_in. intros n Hn.
    split; [tauto|]. intros Hp. split; [done|].
    unfold Simple.has_edge, Simple.node_coords.
    rewrite bool_decide_eq_true, elem_of_collect_coords.
    exists e. split; [done|]. destruct (HP n Hp); auto. }
  rewrite (Hf (fun n => node_coord n = start_coord e)) by auto.
  rewrite (Hf (fun n => node_coord n = end_coord e
                        ∧ node_coord n <> start_coord e)) by tauto.
  done.
Qed.

Lemma connected_subset_same_enrichment_witness :
  enrich_edge (Simple.connected Examples.three_nodes Examples.one_edge)
    (Examples.sample_edge 0 0 1 0 40)
  = enrich_edge Examples.three_nodes (Examples.sample_edge 0 0 1 0 40).
Proof.
  apply connected_subset_same_enrichment. by left.
Defined.

(** ** When a page is built *)


Lemma is_ok_Ok {A} (a : A) : is_ok (Ok a).
Proof. by exists a. Qed.

Lemma py_map_is_ok {A B} (f : A -> py B) (l : list A) :
  is_ok (py_map f l) <-> forall x, x ∈ l -> is_ok (f x).
Proof.
  split; [|apply py_map_ok].
  intros [ys Hys] x Hx. apply list_elem_of_lookup in Hx as [i Hi].
  destruct (py_map_lookup _ _ _ _ _ Hys Hi) as (y & _ & Hy). by exists y.
Qed.

Lemma py_map_fst {A B C} (f : A -> py C) (l : list (B * A)) (ys : list (B * C)) :
  py_map (fun g => c ← f g.2; Ok (g.1, c)) l = Ok ys -> ys.*1 = l.*1.
Proof.
  revert ys. induction l as [|g l IH]; intros ys; simpl.
  - by intros [= <-].
  - destruct (f g.2) as [c|]; simpl; [|done].
    destruct (py_map (fun g => c ← f g.2; Ok (g.1, c)) l) as [ys'|] eqn:E;
      simpl; [|done].
    intros [= <-]. csimpl. f_equal. by apply IH.
Qed.

Lemma dict_lookup_imap {K V} `{EqDecision K} (f : nat -> V) (ks : list K) (k : K) :
  k ∈ ks -> is_ok (dict_lookup (imap (fun i c => (c, f i)) ks) k).
Proof.
  revert f. induction ks as [|a ks IH]; intros f Hk; [by inversion Hk|].
  simpl. destruct (decide (a = k)); [by eexists|].
  apply elem_of_cons in Hk as [->|Hk]; [done|].
  by apply (IH (f ∘ S)).
Qed.

Lemma centroid_is_ok (g : list node) :
  is_ok (centroid g) <-> Qc_sum (sizes g) <> Q2Qc 0.
Proof.
  unfold centroid, np_average.
  destruct (decide (Qc_sum (sizes g) = Q2Qc 0)) as [E|E]; simpl.
  - split; [by intros [? ?]|done].
  - split; [done|]. intros _. by eexists.
Qed.

Lemma groupby_cluster_keys (nodes : list node) :
  (groupby_cluster nodes).*1
  = sorted_strings (unique (omap nd_cluster_name nodes)).
Proof.
  unfold groupby_cluster. rewrite <- list_fmap_compose.
  rewrite (list_fmap_ext _ (fun c => c) _) by done. apply list_fmap_id.
Qed.

Lemma elem_of_cluster_names (nodes : list node) (c : string) :
  c ∈ sorted_strings (unique (omap nd_cluster_name nodes))
  <-> exists n, n ∈ nodes ∧ nd_cluster_name n = Some c.
Proof.
  unfold sorted_strings.
  by rewrite elem_of_py_sorted, elem_of_unique, list_elem_of_omap.
Qed.

Lemma label_layout_is_ok {K} `{EqDecision K} (span radius : R)
    (color_map : list (K * string)) (key : string -> K)
    (centroids : list (string * (Qc * Qc))) :
  is_ok (label_layout span radius color_map key centroids)
  <-> centroids <> []
      ∧ forall row, row ∈ centroids -> is_ok (dict_lookup color_map (key row.1)).
Proof.
  unfold label_layout, angle_offset.
  destruct (decide (length centroids = 0%nat)) as [E|E]; simpl.
  - apply length_zero_iff_nil in E as ->.
    split; [by intros [? ?]|]. by intros [? _].
  - rewrite py_map_is_ok. split.
    + intros H. split; [by intros ->|].
      intros row Hrow. apply list_elem_of_lookup in Hrow as [i Hi].
      assert (is_Some (((fun a => (a + PI / INR (length centroids))%R)
                 <$> np_linspace_open span (length centroids)) !! i))
        as [a Ha].
      { apply lookup_lt_is_Some.
        unfold np_linspace_open. rewrite !length_fmap, length_seq.
        by eapply lookup_lt_Some. }
      specialize (H (row, a)).
      destruct H as [lab Hlab].
      { apply list_elem_of_lookup. exists i.
        rewrite lookup_zip_with, Hi. simpl. by rewrite Ha. }
      unfold place_label in Hlab. simpl in Hlab. py_inv Hlab. by eexists.
    + intros [_ H] [row a] Hin. unfold place_label. simpl.
      destruct (H row) as [color ->]; [|by eexists].
      apply list_elem_of_lookup in Hin as [i Hi].
      apply lookup_zip_with_Some in Hi as (r' & a' & [= -> ->] & Hr & _).
      by eapply list_elem_of_lookup_2.
Qed.



(** ** More on the hover points *)

Module HoverMore.
Import Hover.

Lemma sample_edge_lengths (a : arrays) (e : js_edge) :
  let n := Z.to_nat (numPoints e) in
  length (edgeHoverX (sample_edge a e)) = (length (edgeHoverX a) + n)%nat
  ∧ length (edgeHoverY (sample_edge a e)) = (length (edgeHoverY a) + n)%nat
  ∧ length (edgeHoverTexts (sample_edge a e))
    = (length (edgeHoverTexts a) + n)%nat
  ∧ length (edgeHoverColors (sample_edge a e))
    = (length (edgeHoverColors a) + n)%nat.
Proof.
  intros n. unfold sample_edge. fold n.
  destruct (HoverFacts.for_loop_push e 0 n a) as (-> & -> & -> & ->).
  by rewrite !length_app, !length_fmap, length_seq, !length_replicate.
Qed.

Lemma edge_hover_points_lengths (edgeData : list js_edge) (a : arrays) :
  let total := sum_list_with (fun e => Z.to_nat (numPoints e)) edgeData in
  let a' := foldl sample_edge a edgeData in
  length (edgeHoverX a') = (length (edgeHoverX a) + total)%nat
  ∧ length (edgeHoverY a') = (length (edgeHoverY a) + total)%nat
  ∧ length (edgeHoverTexts a') = (length (edgeHoverTexts a) + total)%nat
  ∧ length (edgeHoverColors a') = (length (edgeHoverColors a) + total)%nat.
Proof.
  revert a. induction edgeData as [|e es IH]; intros a; simpl.
  - by rewrite !Nat.add_0_r.
  - destruct (IH (sample_edge a e)) as (-> & -> & -> & ->).
    destruct (sample_edge_lengths a e) as (-> & -> & -> & ->).
    repeat split; lia.
Qed.



End HoverMore.

(** After the loop over all edges the four hover arrays have the same
    length, the sum of the edges' point counts, which is at least five per
    edge; so the hover trace is missing exactly when there is no edge. *)
Theorem hover_arrays_stay_parallel (edgeData : list Hover.js_edge) :
  let a := Hover.edge_hover_points edgeData in
  length (Hover.edgeHoverX a)
    = sum_list_with (fun e => Z.to_nat (Hover.numPoints e)) edgeData
  ∧ length (Hover.edgeHoverY a) = length (Hover.edgeHoverX a)
  ∧ length (Hover.edgeHoverTexts a) = length (Hover.edgeHoverX a)
  ∧ length (Hover.edgeHoverColors a) = length (Hover.edgeHoverX a)
  ∧ (5 * length edgeData <= length (Hover.edgeHoverX a))%nat
  ∧ ((0 < length (Hover.edgeHoverX a))%nat <-> edgeData <> []).
Proof.
  intros a. unfold a, Hover.edge_hover_points. clear a.
  destruct (HoverMore.edge_hover_points_lengths edgeData Hover.empty_arrays)
    as (-> & -> & -> & ->). simpl.
  assert (5 * length edgeData
          <= sum_list_with (fun e => Z.to_nat (Hover.numPoints e)) edgeData)%nat
    as Hge.
  { induction edgeData as [|e es IH]; [simpl; lia|].
    cbn [length sum_list_with]. pose proof (HoverFacts.numPoints_ge_5 e).
    fold (sum_list_with (fun e => Z.to_nat (Hover.numPoints e)) es). lia. }
  split_and!; try done.
  split.
  - intros Hpos ->. simpl in Hpos. lia.
  - intros Hne. destruct edgeData; [done|]. cbn [length] in Hge. lia.
Qed.







(** ** Cluster colours *)

Lemma dict_lookup_imap_NoDup {K V} `{EqDecision K} (f : nat -> V)
    (ks : list K) (i : nat) (k : K) :
  NoDup ks -> ks !! i = Some k ->
  dict_lookup (imap (fun i c => (c, f i)) ks) k = Ok (f i).
Proof.
  intros Hnd. revert f i. induction Hnd as [|a ks Ha Hnd IH]; intros f i Hi.
  - done.
  - simpl. destruct i as [|i]; simpl in Hi.
    + injection Hi as ->. by rewrite decide_True.
    + rewrite decide_False.
      * by apply (IH (f ∘ S)).
      * intros ->. apply Ha. by eapply list_elem_of_lookup_2.
Qed.

(** The colour map never lacks a cluster it was built from: the cluster at
    position [i] of the sorted names gets [custom_cmap[i % 7]]. The first
    seven clusters get seven different colours, and from the eighth on the
    colours repeat. *)
Theorem cluster_colours_cycle (unique_clusters : list string) (i : nat)
    (cluster : string) :
  NoDup unique_clusters ->
  unique_clusters !! i = Some cluster ->
  dict_lookup (make_cluster_color_map unique_clusters) cluster
    = Ok (cmap_color i)
  ∧ cmap_color (i + 7) = cmap_color i
  ∧ forall j, (i < 7)%nat -> (j < 7)%nat -> i <> j ->
      cmap_color i <> cmap_color j.
Proof.
  intros Hnd Hi. split_and!.
  - by apply dict_lookup_imap_NoDup.
  - unfold cmap_color. simpl length.
    replace (i + 7)%nat with (i + 1 * 7)%nat by lia.
    by rewrite Nat.Div0.mod_add.
  - intros j Hi7 Hj7 Hij.
    do 7 (destruct i as [|i]; [do 7 (destruct j as [|j]; [done|]); lia|]).
    lia.
Qed.

Lemma cluster_colours_cycle_witness :
  dict_lookup (make_cluster_color_map ["Awareness"; "Self-Regulation"]%string)
    "Self-Regulation"%string = Ok (cmap_color 1)
  ∧ cmap_color (1 + 7) = cmap_color 1
  ∧ forall j, (1 < 7)%nat -> (j < 7)%nat -> 1%nat <> j ->
      cmap_color 1 <> cmap_color j.
Proof.
  apply (cluster_colours_cycle ["Awareness"; "Self-Regulation"]%string 1).
  - apply (bool_decide_unpack _). by vm_compute.
  - reflexivity.
Defined.

Lemma ordered_lists_equal (l1 l2 : list string) :
  NoDup l1 -> NoDup l2 ->
  (forall x, x ∈ l1 <-> x ∈ l2) ->
  (forall x y, precedes l1 x y -> String.leb x y = true) ->
  (forall x y, precedes l2 x y -> String.leb x y = true) ->
  l1 = l2.
Proof.
  intros Hnd1. revert l2.
  induction Hnd1 as [|a l1 Ha Hnd1 IH]; intros l2 Hnd2 Hel Ho1 Ho2.
  - destruct l2 as [|b l2]; [done|].
    assert (b ∈ @nil string) as Hb by (apply Hel; by left). by inversion Hb.
  - destruct Hnd2 as [|b l2 Hb Hnd2].
    { assert (a ∈ @nil string) as Ha' by (apply Hel; by left). by inversion Ha'. }
    assert (a = b) as ->.
    { destruct (decide (a = b)) as [|Hne]; [done|].
      assert (a ∈ l2) as Ha2.
      { assert (a ∈ b :: l2) as H by (apply Hel; by left).
        apply elem_of_cons in H as [?|?]; done. }
      assert (b ∈ l1) as Hb1.
      { assert (b ∈ a :: l1) as H by (apply Hel; by left).
        apply elem_of_cons in H as [?|?]; [congruence|done]. }
      apply String.leb_antisym.
      - apply Ho1. simpl. by left.
      - apply Ho2. simpl. by left. }
    f_equal. apply IH; [done| | |].
    + intros x. specialize (Hel x). rewrite !elem_of_cons in Hel.
      split; intros Hx.
      * destruct (proj1 Hel (or_intror Hx)) as [->|?]; done.
      * destruct (proj2 Hel (or_intror Hx)) as [->|?]; done.
    + intros x y Hp. apply Ho1. simpl. by right.
    + intros x y Hp. apply Ho2. simpl. by right.
Qed.

Lemma sorted_unique_same_elements (l1 l2 : list string) :
  (forall x, x ∈ l1 <-> x ∈ l2) ->
  sorted_strings (unique l1) = sorted_strings (unique l2).
Proof.
  intros Hel. unfold sorted_strings. apply ordered_lists_equal.
  - apply NoDup_py_sorted, NoDup_unique.
  - apply NoDup_py_sorted, NoDup_unique.
  - intros x. by rewrite !elem_of_py_sorted, !elem_of_unique.
  - intros x y. apply py_sorted_ordered;
      [apply String.leb_total|apply String_leb_trans].
  - intros x y. apply py_sorted_ordered;
      [apply String.leb_total|apply String_leb_trans].
Qed.

(** The order of the rows of the node table does not matter for the cluster
    order: two tables with the same rows in any order give the same sorted
    cluster names, hence the same colour for every cluster, the same order of
    the label rows, and the same list of periods. *)
Theorem cluster_order_ignores_row_order (nodes1 nodes2 : list node) :
  nodes1 ≡ₚ nodes2 ->
  sorted_strings (unique (omap nd_cluster_name nodes1))
    = sorted_strings (unique (omap nd_cluster_name nodes2))
  ∧ make_cluster_color_map (sorted_strings (unique (omap nd_cluster_name nodes1)))
    = make_cluster_color_map (sorted_strings (unique (omap nd_cluster_name nodes2)))
  ∧ (groupby_cluster nodes1).*1 = (groupby_cluster nodes2).*1
  ∧ PeriodIndex.quarters nodes1 = PeriodIndex.quarters nodes2.
Proof.
  intros Hperm.
  assert (sorted_strings (unique (omap nd_cluster_name nodes1))
          = sorted_strings (unique (omap nd_cluster_name nodes2))) as Hsame.
  { apply sorted_unique_same_elements. intros c.
    rewrite !list_elem_of_omap. by setoid_rewrite Hperm. }
  split_and!.
  - done.
  - by rewrite Hsame.
  - by rewrite !groupby_cluster_keys.
  - unfold PeriodIndex.quarters. apply sorted_unique_same_elements.
    intros x. by rewrite Hperm.
Qed.

Lemma cluster_order_ignores_row_order_witness :
  sorted_strings (unique (omap nd_cluster_name Examples.three_nodes))
  = sorted_strings (unique (omap nd_cluster_name (reverse Examples.three_nodes))).
Proof.
  apply (cluster_order_ignores_row_order
           Examples.three_nodes (reverse Examples.three_nodes)).
  by rewrite reverse_Permutation.
Defined.

(** ** Sidebar *)

Module SidebarFacts.
Import Sidebar.

Lemma co_occur_percentage_le_99 (weight : Qc) (count : nat) :
  co_occur_percentage weight count <= 99.
Proof. unfold co_occur_percentage. case_decide; lia. Qed.

Lemma co_occur_items_None (count : nat) (l : list (option string * Qc)) :
  mapM (co_occur_item count) l = None <-> exists w, (None, w) ∈ l.
Proof.
  rewrite mapM_None, Exists_exists. split.
  - intros ([[name|] w] & Hin & Hnone); [done|]. by exists w.
  - intros [w Hin]. by exists (None, w).
Qed.

Lemma card_of_None (entry : string * Complex.tributary) :
  card_of entry = None
  <-> exists w, (None, w) ∈ take 2 (Complex.co_occurrences entry.2).
Proof.
  unfold card_of.
  destruct (Complex.co_occurrences entry.2) as [|p l] eqn:E.
  - simpl. split; [done|]. intros [w Hw]. by inversion Hw.
  - rewrite <- (co_occur_items_None (Complex.count entry.2)).
    destruct (mapM (co_occur_item (Complex.count entry.2)) (take 2 (p :: l)));
      simpl; split; done.
Qed.

Lemma card_of_Some (entry : string * Complex.tributary) (c : card) :
  card_of entry = Some c ->
  cd_cluster c = entry.1
  ∧ cd_percentage c = Complex.percentage entry.2
  ∧ cd_count c = Complex.count entry.2
  ∧ (cd_co_occur_text c = IndependentFlow
     <-> Complex.co_occurrences entry.2 = [])
  ∧ forall items, cd_co_occur_text c = CoOccursWith items ->
      (length items <= 2)%nat
      ∧ forall name pct, (name, pct) ∈ items -> pct <= 99.
Proof.
  unfold card_of. intros H.
  apply bind_Some in H as (text & Htext & [= <-]). simpl.
  split_and!; try done.
  - destruct (Complex.co_occurrences entry.2) as [|p l] eqn:E.
    + by injection Htext as <-.
    + apply fmap_Some in Htext as (items & _ & ->). by split.
  - intros items ->.
    destruct (Complex.co_occurrences entry.2) as [|p l] eqn:E; [done|].
    apply fmap_Some in Htext as (items' & Hitems & [= <-]).
    split.
    + apply length_mapM in Hitems. rewrite <- Hitems, length_take. lia.
    + intros name pct Hin. apply mapM_Some in Hitems.
      apply list_elem_of_lookup in Hin as [i Hi].
      destruct (Forall2_lookup_r _ _ _ _ _ Hitems Hi) as ([o w] & _ & Hitem).
      unfold co_occur_item in Hitem. destruct o as [nm|]; [|done].
      simpl in Hitem. injection Hitem as _ <-.
      apply co_occur_percentage_le_99.
Qed.
End SidebarFacts.

(** The sidebar fails (an [AttributeError]: a null name has no [split])
    exactly when, for some cluster, one of the first two co-occurrences it
    is to show has a null cluster name. *)
Theorem sidebar_fails_on_unnamed_neighbour
    (tributary_stats : list (string * Complex.tributary)) :
  Sidebar.sidebar_cards tributary_stats = None
  <-> exists cluster stats w,
        (cluster, stats) ∈ tributary_stats
        ∧ (None, w) ∈ take 2 (Complex.co_occurrences stats).
Proof.
  unfold Sidebar.sidebar_cards. rewrite mapM_None, Exists_exists. split.
  - intros ([c t] & Hin & Hnone). rewrite elem_of_py_sorted in Hin.
    apply SidebarFacts.card_of_None in Hnone as [w Hw]. by exists c, t, w.
  - intros (c & t & w & Hin & Hw). exists (c, t).
    rewrite elem_of_py_sorted. split; [done|].
    apply SidebarFacts.card_of_None. by exists w.
Qed.

(** When the sidebar is built it has one card per cluster, in descending
    order of percentage; a card shows "Independent flow" exactly when its
    cluster has no co-occurrence, and otherwise at most two items, none with
    a percentage above 99. *)
Theorem sidebar_cards_follow_percentage
    (tributary_stats : list (string * Complex.tributary))
    (cards : list Sidebar.card) :
  Sidebar.sidebar_cards tributary_stats = Some cards ->
  Sidebar.cd_cluster <$> cards ≡ₚ tributary_stats.*1
  ∧ (forall i j c1 c2,
       (i < j)%nat -> cards !! i = Some c1 -> cards !! j = Some c2 ->
       (Sidebar.cd_percentage c2 <= Sidebar.cd_percentage c1)%Qc)
  ∧ forall c, c ∈ cards ->
      exists stats,
        (Sidebar.cd_cluster c, stats) ∈ tributary_stats
        ∧ Sidebar.cd_percentage c = Complex.percentage stats
        ∧ Sidebar.cd_count c = Complex.count stats
        ∧ (Sidebar.cd_co_occur_text c = Sidebar.IndependentFlow
           <-> Complex.co_occurrences stats = [])
        ∧ forall items,
            Sidebar.cd_co_occur_text c = Sidebar.CoOccursWith items ->
            (length items <= 2)%nat
            ∧ forall name pct, (name, pct) ∈ items -> pct <= 99.
Proof.
  unfold Sidebar.sidebar_cards. intros Hcards. apply mapM_Some in Hcards.
  set (sorted := py_sorted Sidebar.by_percentage_desc tributary_stats) in *.
  assert (forall i c, cards !! i = Some c ->
            exists e, sorted !! i = Some e ∧ Sidebar.card_of e = Some c) as Hrow.
  { intros i c Hi. by apply (Forall2_lookup_r _ _ _ _ _ Hcards Hi). }
  split_and!.
  - transitivity (sorted.*1); [|unfold sorted; by rewrite py_sorted_Permutation].
    assert (Sidebar.cd_cluster <$> cards = sorted.*1) as ->; [|done].
    clear Hrow.
    induction Hcards as [|e c es cs Hec _ IH]; [done|].
    csimpl. rewrite IH. f_equal.
    by destruct (SidebarFacts.card_of_Some _ _ Hec) as (-> & _).
  - intros i j c1 c2 Hij Hi Hj.
    destruct (Hrow i c1 Hi) as (e1 & He1 & Hc1).
    destruct (Hrow j c2 Hj) as (e2 & He2 & Hc2).
    destruct (SidebarFacts.card_of_Some _ _ Hc1) as (_ & -> & _).
    destruct (SidebarFacts.card_of_Some _ _ Hc2) as (_ & -> & _).
    assert (precedes sorted e1 e2) as Hp.
    { apply precedes_lookup. by exists i, j. }
    apply py_sorted_ordered in Hp.
    + unfold Sidebar.by_percentage_desc in Hp.
      by apply bool_decide_eq_true in Hp.
    + intros a b. unfold Sidebar.by_percentage_desc.
      rewrite !bool_decide_eq_true.
      destruct (Qclt_le_dec (Complex.percentage a.2) (Complex.percentage b.2));
        [right; by apply Qclt_le_weak|by left].
    + intros a b c. unfold Sidebar.by_percentage_desc.
      rewrite !bool_decide_eq_true. intros ??. by eapply Qcle_trans.
  - intros c Hc. apply list_elem_of_lookup in Hc as [i Hi].
    destruct (Hrow i c Hi) as ([cl t] & He & Hcard).
    destruct (SidebarFacts.card_of_Some _ _ Hcard) as (-> & -> & -> & Hind & Hitems).
    exists t. split_and!; try done.
    apply list_elem_of_lookup_2 in He. unfold sorted in He.
    by rewrite elem_of_py_sorted in He.
Qed.

Lemma sidebar_cards_follow_percentage_witness :
  let stats :=
    [("A", Complex.Tributary 1 (Z2Qc 50) (Z2Qc 0) [(Some "B", Z2Qc 3)]);
     ("B", Complex.Tributary 1 (Z2Qc 50) (Z2Qc 0) [])]%string in
  exists cards,
    Sidebar.sidebar_cards stats = Some cards
    ∧ Sidebar.cd_cluster <$> cards ≡ₚ stats.*1.
Proof.
  intros stats. eexists. split; [reflexivity|].
  eapply proj1, (sidebar_cards_follow_percentage stats). reflexivity.
Defined.

(** ** Traces *)

Lemma zip3_fmap_same {A B C D} (f : A -> B) (g : A -> C) (h : A -> D)
    (l : list A) :
  zip (zip (f <$> l) (g <$> l)) (h <$> l) = (fun a => (f a, g a, h a)) <$> l.
Proof. induction l as [|a l IH]; csimpl; [done|]. by rewrite IH. Qed.

Lemma groups_skip_key {A K} `{EqDecision K} (key : A -> K) (k : K)
    (ks : list K) (l : list A) :
  k ∉ ks ->
  (k' ← ks; filter (fun a => key a = k') l)
  = (k' ← ks; filter (fun a => key a = k')
                (filter (fun a => ¬ key a = k) l)).
Proof.
  induction ks as [|k' ks IH]; intros Hk; [done|].
  apply not_elem_of_cons in Hk as [Hne Hk]. csimpl.
  rewrite <- (IH Hk). f_equal.
  rewrite list_filter_filter. apply list_filter_iff. intros a.
  split; [|tauto]. intros ->. split; [done|]. by intros ->.
Qed.

Lemma groups_partition {A K} `{EqDecision K} (key : A -> K) (ks : list K)
    (l : list A) :
  NoDup ks -> (forall a, a ∈ l -> key a ∈ ks) ->
  (k ← ks; filter (fun a => key a = k) l) ≡ₚ l.
Proof.
  intros Hnd. revert l. induction Hnd as [|k ks Hk Hnd IH]; intros l Hl.
  - destruct l as [|a l]; [done|].
    specialize (Hl a (list_elem_of_here _ _)). by inversion Hl.
  - csimpl.
    etrans; [|apply (filter_app_complement (fun a => key a = k) l)].
    f_equiv. rewrite (groups_skip_key key k ks l Hk).
    apply IH. intros a Ha. apply list_elem_of_filter in Ha as [Hne Ha].
    specialize (Hl a Ha). apply elem_of_cons in Hl as [?|?]; done.
Qed.

Module TracesFacts.
Import Traces.

Lemma hover_points_nonempty (edgeData : list edge_datum) :
  (0 < length (Hover.edgeHoverX
         (Hover.edge_hover_points (Hover.of_edge_datum <$> edgeData))))%nat
  <-> edgeData ≠ [].
Proof.
  unfold Hover.edge_hover_points.
  destruct (HoverMore.edge_hover_points_lengths
              (Hover.of_edge_datum <$> edgeData) Hover.empty_arrays)
    as (-> & _).
  destruct edgeData as [|e es]; simpl; [split; [lia|done]|].
  split; [done|]. intros _.
  pose proof (HoverFacts.numPoints_ge_5 (Hover.of_edge_datum e)). lia.
Qed.

Lemma cluster_trace_drawn (innerWidth : Z) (nodeData : list node_datum)
    (cluster : option string) :
  cluster_trace innerWidth nodeData cluster ≫= drawn
  = (fun n => (n_x n, n_y n, n_hover_text n))
      <$> filter (fun n => n_cluster n = cluster) nodeData.
Proof.
  unfold cluster_trace.
  destruct (filter _ nodeData) as [|first rest] eqn:E; [done|].
  generalize (first :: rest). intros l.
  change (zip (zip (n_x <$> l) (n_y <$> l)) (n_hover_text <$> l) ++ []
          = (fun n => (n_x n, n_y n, n_hover_text n)) <$> l).
  rewrite app_nil_r. apply zip3_fmap_same.
Qed.

Lemma cluster_trace_one (innerWidth : Z) (nodeData : list node_datum)
    (cluster : option string) :
  cluster ∈ n_cluster <$> nodeData ->
  length (cluster_trace innerWidth nodeData cluster) = 1%nat.
Proof.
  intros (n & -> & Hn)%list_elem_of_fmap. unfold cluster_trace.
  destruct (filter _ nodeData) as [|first rest] eqn:E; [|done].
  assert (n ∈ filter (fun m => n_cluster m = n_cluster n) nodeData) as Hin
    by by apply list_elem_of_filter.
  rewrite E in Hin. by inversion Hin.
Qed.

Lemma cluster_traces_length (innerWidth : Z) (nodeData : list node_datum)
    (clusters : list (option string)) :
  (forall c, c ∈ clusters -> c ∈ n_cluster <$> nodeData) ->
  length (cluster ← clusters; cluster_trace innerWidth nodeData cluster)
  = length clusters.
Proof.
  induction clusters as [|c cs IH]; intros Hin; [done|].
  csimpl. rewrite length_app, IH, cluster_trace_one; [done| |].
  - apply Hin, list_elem_of_here.
  - intros c' Hc'. by apply Hin, list_elem_of_further.
Qed.

Lemma cluster_traces_drawn (innerWidth : Z) (nodeData : list node_datum)
    (clusters : list (option string)) :
  (cluster ← clusters; cluster_trace innerWidth nodeData cluster) ≫= drawn
  = (fun n => (n_x n, n_y n, n_hover_text n))
      <$> (cluster ← clusters;
           filter (fun n => n_cluster n = cluster) nodeData).
Proof.
  induction clusters as [|c cs IH]; [done|].
  csimpl. rewrite bind_app, fmap_app, IH. f_equal. apply cluster_trace_drawn.
Qed.

Lemma lines_drawn (width : Qc -> Qc) (edgeData : list edge_datum) :
  (edge_line width <$> edgeData) ≫= drawn = [].
Proof. induction edgeData as [|e es IH]; [done|]. csimpl. apply IH. Qed.

Lemma labels_drawn (labelData : list label_datum) :
  (label_trace <$> labelData) ≫= drawn = [].
Proof. induction labelData as [|e es IH]; [done|]. csimpl. apply IH. Qed.

End TracesFacts.

(** The trace list handed to [Plotly.newPlot] by [getResponsiveTraces],
    in either page: it holds one line per edge, one trace of hover points
    exactly when there is an edge, one marker trace per distinct cluster of
    [nodeData] and one text trace per label; and the marker traces together
    draw every node of [nodeData] exactly once (position and hover
    text), no other trace drawing any. *)
Theorem traces_draw_every_node_once (width : Qc -> Qc) (innerWidth : Z)
    (edgeData : list edge_datum) (nodeData : list node_datum)
    (labelData : list label_datum) :
  let traces :=
    Traces.getResponsiveTraces width innerWidth edgeData nodeData labelData in
  length traces
  = (length edgeData + (if decide (edgeData = []) then 0 else 1)
     + length (unique (n_cluster <$> nodeData)) + length labelData)%nat
  ∧ traces ≫= Traces.drawn
    ≡ₚ (fun n => (n_x n, n_y n, n_hover_text n)) <$> nodeData.
Proof.
  unfold Traces.getResponsiveTraces. cbv zeta. split.
  - rewrite !length_app, !length_fmap.
    rewrite TracesFacts.cluster_traces_length
      by (intros c; apply elem_of_unique).
    pose proof (TracesFacts.hover_points_nonempty edgeData) as Hh.
    destruct (decide (0 < _)%nat) as [Hpos|Hpos];
      destruct (decide (edgeData = [])) as [He|He]; simpl; try lia.
    + apply Hh in Hpos. done.
    + apply Hh in He. done.
  - rewrite !bind_app, TracesFacts.lines_drawn, TracesFacts.labels_drawn,
      TracesFacts.cluster_traces_drawn, app_nil_r. simpl.
    assert ((if decide (0 < length (Hover.edgeHoverX
                (Hover.edge_hover_points (Hover.of_edge_datum <$> edgeData))))%nat
             then [Traces.EdgeHoverPoints
                     (Hover.edge_hover_points (Hover.of_edge_datum <$> edgeData))]
             else []) ≫= Traces.drawn = []) as ->
      by (by destruct (decide _)).
    simpl. apply fmap_Permutation, groups_partition.
    + apply NoDup_unique.
    + intros n Hn. apply elem_of_unique, list_elem_of_fmap. eauto.
Qed.

(** ** When the simpler page is built *)

Module SimpleBuilt.
Import Simple.

Lemma clusters_named (l cs : list (option string)) (c : string) :
  sorted_clusters_with_null l = Ok cs -> Some c ∈ l ->
  None ∉ l ∧ cs = (Some <$> sorted_strings (omap (fun c => c) l)).
Proof.
  unfold sorted_clusters_with_null.
  destruct (decide (None ∈ l)) as [Hnone|Hnone].
  - destruct l as [|a [|b l]]; try done.
    intros _ Hc. apply list_elem_of_singleton in Hc as <-.
    by apply list_elem_of_singleton in Hnone.
  - by intros [= <-] _.
Qed.

Lemma elem_of_sorted_names (l : list (option string)) (c : string) :
  Some c ∈ fmap (M:=list) Some (sorted_strings (omap (fun c => c) l))
  <-> Some c ∈ l.
Proof.
  rewrite list_elem_of_fmap. unfold sorted_strings. split.
  - intros (c' & [= <-] & Hc).
    apply elem_of_py_sorted, list_elem_of_omap in Hc as (o & Ho & Hc).
    simpl in Hc. by subst.
  - intros Hc. exists c. split; [done|].
    apply elem_of_py_sorted, list_elem_of_omap. by exists (Some c).
Qed.

Lemma elem_of_connected_names (nodes : list node) (c : string) :
  Some c ∈ unique (nd_cluster_name <$> nodes)
  <-> exists n, n ∈ nodes ∧ nd_cluster_name n = Some c.
Proof.
  rewrite elem_of_unique, list_elem_of_fmap. split.
  - intros (n & Hc & Hn). eauto.
  - intros (n & Hn & Hc). eauto.
Qed.

End SimpleBuilt.

(** [run] of the simpler page builds its page exactly when at least one node
    lies on an edge end, every such node has a cluster name and an
    [avg_score] that converts to an integer, and the sizes of no cluster of
    such nodes sum to zero; in every other case it raises. *)
Theorem simple_page_built_iff (df_nodes : list node) (df_edges : list edge) :
  let conn := Simple.connected df_nodes df_edges in
  is_ok (Simple.run df_nodes df_edges)
  <-> conn <> []
      ∧ (forall n, n ∈ conn ->
           has_cluster n ∧ is_ok (avg_score_display (nd_avg_score n)))
      ∧ (forall c, (exists n, n ∈ conn ∧ nd_cluster_name n = Some c) ->
           Qc_sum (sizes (filter (fun n => nd_cluster_name n = Some c) conn))
           <> Q2Qc 0).
Proof.
  intros conn. unfold Simple.run. fold conn. split.
  - intros [pg H]. py_inv H. clear H.
    assert (is_ok (label_layout Simple.arc_span Simple.radius_offset
              (imap (fun i c => (c, cmap_color i)) v0) Some v2)) as Hlab
      by by eexists.
    apply label_layout_is_ok in Hlab as [Hne _].
    pose proof (py_map_fst _ _ _ Hv2) as Hkeys.
    rewrite groupby_cluster_keys in Hkeys.
    assert (exists c, c ∈ sorted_strings (unique (omap nd_cluster_name conn)))
      as [c Hc].
    { rewrite <- Hkeys. destruct v2 as [|row v2]; [done|].
      exists row.1. apply list_elem_of_here. }
    apply elem_of_cluster_names in Hc as (n0 & Hn0 & Hname0).
    assert (Some c ∈ unique (nd_cluster_name <$> conn)) as Hin
      by (apply SimpleBuilt.elem_of_connected_names; eauto).
    destruct (SimpleBuilt.clusters_named _ _ _ Hv0 Hin) as [Hnone ->].
    assert (forall n, n ∈ conn -> has_cluster n) as Hnamed.
    { intros n Hn. destruct (nd_cluster_name n) as [c'|] eqn:E.
      - unfold has_cluster. rewrite E. by eexists.
      - destruct Hnone. apply elem_of_unique, list_elem_of_fmap. eauto. }
    split; [by intros E; rewrite E in Hn0; inversion Hn0|]. split.
    + intros n Hn. split; [by apply Hnamed|].
      destruct (Hnamed n Hn) as [c' Hc'].
      assert (is_ok (py_map
        (fun cluster =>
           py_map (Simple.node_entry
                     (imap (fun i c => (c, cmap_color i))
                        (Some <$> sorted_strings
                           (omap (fun c => c)
                              (unique (nd_cluster_name <$> conn))))) cluster)
             (Simple.cluster_rows conn cluster))
        (Some <$> sorted_strings
           (omap (fun c => c) (unique (nd_cluster_name <$> conn))))))
        as Hnodes by by eexists.
      rewrite py_map_is_ok in Hnodes.
      specialize (Hnodes (Some c')).
      rewrite py_map_is_ok in Hnodes.
      destruct (Hnodes) with (x := n) as [d Hd].
      { apply SimpleBuilt.elem_of_sorted_names,
          SimpleBuilt.elem_of_connected_names. eauto. }
      { simpl. by apply list_elem_of_filter. }
      unfold Simple.node_entry in Hd. py_inv Hd. by eexists.
    + intros c' Hc'.
      assert (is_ok (py_map (fun g => c ← centroid g.2; Ok (g.1, c))
                       (groupby_cluster conn))) as Hcen by by eexists.
      rewrite py_map_is_ok in Hcen.
      specialize (Hcen (c', filter (fun n => nd_cluster_name n = Some c') conn)).
      destruct Hcen as [row Hrow].
      { unfold groupby_cluster. apply list_elem_of_fmap. exists c'.
        split; [done|]. by apply elem_of_cluster_names. }
      simpl in Hrow. apply centroid_is_ok. py_inv Hrow. by eexists.
  - intros (Hne & Hnodes & Hsizes).
    assert (None ∉ unique (nd_cluster_name <$> conn)) as Hnone.
    { intros (n & Hname & Hn)%elem_of_unique%list_elem_of_fmap.
      destruct (Hnodes n Hn) as [[c Hc] _]. congruence. }
    assert (df_nodes <> []) as Hdf.
    { intros ->. by apply Hne. }
    unfold py_truediv. rewrite decide_False
      by (destruct df_nodes; [done|simpl; lia]).
    simpl. unfold sorted_clusters_with_null. rewrite decide_False by done.
    simpl.
    set (cs := Some <$> sorted_strings
                 (omap (fun c => c) (unique (nd_cluster_name <$> conn)))).
    set (cmap := imap (fun i c => (c, cmap_color i)) cs).
    assert (is_ok (py_map
        (fun cluster => py_map (Simple.node_entry cmap cluster)
                          (Simple.cluster_rows conn cluster)) cs))
      as [nd ->].
    { apply py_map_is_ok. intros cl Hcl. apply py_map_is_ok. intros n Hn.
      unfold Simple.node_entry.
      destruct cl as [c|]; [|by inversion Hn].
      simpl in Hn. apply list_elem_of_filter in Hn as [Hname Hn].
      destruct (Hnodes n Hn) as [_ [avg ->]]. simpl.
      destruct (dict_lookup_imap cmap_color cs (Some c) Hcl) as [color Hcolor].
      fold cmap in Hcolor. rewrite Hcolor. by eexists. }
    simpl.
    assert (is_ok (py_map (fun g => c ← centroid g.2; Ok (g.1, c))
                     (groupby_cluster conn))) as [cen Hcen].
    { apply py_map_is_ok. intros [c g] Hg. simpl.
      unfold groupby_cluster in Hg.
      apply list_elem_of_fmap in Hg as (c' & [= -> ->] & Hc').
      apply elem_of_cluster_names in Hc'.
      destruct (proj2 (centroid_is_ok _) (Hsizes c' Hc')) as [xy ->].
      by eexists. }
    rewrite Hcen. simpl.
    pose proof (py_map_fst _ _ _ Hcen) as Hkeys.
    rewrite groupby_cluster_keys in Hkeys.
    assert (is_ok (label_layout Simple.arc_span Simple.radius_offset cmap
                     Some cen)) as [lab ->].
    { apply label_layout_is_ok. split.
      - intros ->. simpl in Hkeys.
        destruct conn as [|n rest] eqn:E; [done|].
        destruct (Hnodes n (list_elem_of_here _ _)) as [[c Hc] _].
        assert (c ∈ sorted_strings (unique (omap nd_cluster_name (n :: rest))))
          as Hin by (apply elem_of_cluster_names; exists n;
                     split; [apply list_elem_of_here|done]).
        rewrite <- Hkeys in Hin. by inversion Hin.
      - intros row Hrow. apply dict_lookup_imap.
        apply SimpleBuilt.elem_of_sorted_names,
          SimpleBuilt.elem_of_connected_names.
        apply elem_of_cluster_names. rewrite <- Hkeys.
        apply list_elem_of_fmap. eauto. }
    by eexists.
Qed.
